(** * Long-term repair reserve calculator: period reconciler and fee derivation

    A shallow embedding of the input-reconciliation and derivation logic of
    [src/App.tsx] (with the data model of [src/types.ts] and the response
    handling of [src/services/geminiService.ts]), and the properties of the
    specification stated and settled against it.

    Numbers.  The TypeScript type [number] is modelled by the exact rationals
    [Q]: every value is finite and arithmetic is not rounded.  Numeric
    equality ([===] on numbers) is [Qeq], written [==].  The derivation is
    embedded a second time over IEEE doubles (module [Binary64]), where its
    properties are re-established with the rounding, NaN and infinities of
    the arithmetic the program runs on, and so is the range edit (module
    [Binary64Range]), to evaluate it with that rounding.  A property that
    depends on computed values, and not on comparisons alone, is stated for
    whole numbers of magnitude at most 10^15 ([safeWhole]): on these the
    doubles hold every value the reconciler forms exactly, and the exact
    arithmetic of the model is the arithmetic of the program. *)

From Stdlib Require Import QArith Qround Lqa Lia ZArith Bool List String Floats.
From Stdlib Require Import Ascii NArith Decimal DecimalNat DecimalString.
Import ListNotations.

Local Open Scope Q_scope.
Local Set Warnings "-inexact-float".

(** ** JavaScript numbers and the operators the program uses *)

Module JS.

Definition number := Q.

(** [a <= b], [a < b] and [a > b] on numbers. *)
Definition le (a b : number) : bool := Qle_bool a b.
Definition lt (a b : number) : bool := negb (Qle_bool b a).
Definition gt (a b : number) : bool := lt b a.

(** Truthiness of a number: every number but zero. *)
Definition truthy (x : number) : bool := negb (Qeq_bool x 0).

(** Truthiness of an optional number field ([startYear?: number]):
    [undefined] and [0] are falsy. *)
Definition is_set (x : option number) : bool :=
  match x with
  | Some v => truthy v
  | None => false
  end.

(** [x || d] for an optional number [x]. *)
Definition or_else (x : option number) (d : number) : number :=
  match x with
  | Some v => if truthy v then v else d
  | None => d
  end.

(** [Math.round]: the nearest integer, halves rounded towards plus
    infinity. *)
Definition Math_round (x : number) : number := inject_Z (Qfloor (x + (1 # 2))).

(** [Math.max] of two numbers. *)
Definition Math_max (a b : number) : number := if Qle_bool a b then b else a.

End JS.

Import JS.

(** ** Data model ([src/types.ts]) *)

Inductive CalculationMode := RATE | AMOUNT.
Inductive PeriodInputMode := DURATION | RANGE.

Record CalculationInputs := {
  mode : CalculationMode;
  periodInputMode : PeriodInputMode;
  periodAmount : number;
  totalRepairCost : number;
  accumulationRate : number;
  durationMonths : number;
  startYear : option number;
  endYear : option number;
  totalComplexArea : number;
  householdArea : number
}.

Record CalculationResult := {
  monthlyTotalTarget : number;
  monthlyRatePerSqm : number;
  householdMonthlyFee : number;
  periodTargetAmount : number
}.

(** ** Fee derivation ([calculate], [src/App.tsx])

    [setResult(null); return] is the result [None]; [setResult({...})] is
    [Some]. *)

Definition calculate (inputs : CalculationInputs) : option CalculationResult :=
  if le (durationMonths inputs) 0 || le (totalComplexArea inputs) 0
     || le (householdArea inputs) 0
  then None
  else
    let target :=
      match mode inputs with
      | RATE =>
          if le (totalRepairCost inputs) 0 || le (accumulationRate inputs) 0
          then None
          else Some (totalRepairCost inputs * (accumulationRate inputs / 100))
      | AMOUNT =>
          if le (periodAmount inputs) 0
          then None
          else Some (periodAmount inputs)
      end in
    match target with
    | None => None
    | Some periodTargetAmount' =>
        let monthlyTotalTarget' := periodTargetAmount' / durationMonths inputs in
        let monthlyRatePerSqm' := monthlyTotalTarget' / totalComplexArea inputs in
        let householdMonthlyFee' := monthlyRatePerSqm' * householdArea inputs in
        Some {| periodTargetAmount := periodTargetAmount';
                monthlyTotalTarget := monthlyTotalTarget';
                monthlyRatePerSqm := monthlyRatePerSqm';
                householdMonthlyFee := householdMonthlyFee' |}
    end.

(** ** Input edits ([handleInputChange], [src/App.tsx])

    [handleInputChange(field, value)] with [field: keyof CalculationInputs]:
    one constructor for each key, carrying the value of the field's type. *)

Inductive FieldEdit :=
| Edit_mode (value : CalculationMode)
| Edit_periodInputMode (value : PeriodInputMode)
| Edit_periodAmount (value : number)
| Edit_totalRepairCost (value : number)
| Edit_accumulationRate (value : number)
| Edit_durationMonths (value : number)
| Edit_startYear (value : option number)
| Edit_endYear (value : option number)
| Edit_totalComplexArea (value : number)
| Edit_householdArea (value : number).

(** [{ ...prev, [field]: value }]. *)
Definition assign (e : FieldEdit) (prev : CalculationInputs) : CalculationInputs :=
  match e with
  | Edit_mode v =>
      {| mode := v; periodInputMode := periodInputMode prev;
         periodAmount := periodAmount prev; totalRepairCost := totalRepairCost prev;
         accumulationRate := accumulationRate prev; durationMonths := durationMonths prev;
         startYear := startYear prev; endYear := endYear prev;
         totalComplexArea := totalComplexArea prev; householdArea := householdArea prev |}
  | Edit_periodInputMode v =>
      {| mode := mode prev; periodInputMode := v;
         periodAmount := periodAmount prev; totalRepairCost := totalRepairCost prev;
         accumulationRate := accumulationRate prev; durationMonths := durationMonths prev;
         startYear := startYear prev; endYear := endYear prev;
         totalComplexArea := totalComplexArea prev; householdArea := householdArea prev |}
  | Edit_periodAmount v =>
      {| mode := mode prev; periodInputMode := periodInputMode prev;
         periodAmount := v; totalRepairCost := totalRepairCost prev;
         accumulationRate := accumulationRate prev; durationMonths := durationMonths prev;
         startYear := startYear prev; endYear := endYear prev;
         totalComplexArea := totalComplexArea prev; householdArea := householdArea prev |}
  | Edit_totalRepairCost v =>
      {| mode := mode prev; periodInputMode := periodInputMode prev;
         periodAmount := periodAmount prev; totalRepairCost := v;
         accumulationRate := accumulationRate prev; durationMonths := durationMonths prev;
         startYear := startYear prev; endYear := endYear prev;
         totalComplexArea := totalComplexArea prev; householdArea := householdArea prev |}
  | Edit_accumulationRate v =>
      {| mode := mode prev; periodInputMode := periodInputMode prev;
         periodAmount := periodAmount prev; totalRepairCost := totalRepairCost prev;
         accumulationRate := v; durationMonths := durationMonths prev;
         startYear := startYear prev; endYear := endYear prev;
         totalComplexArea := totalComplexArea prev; householdArea := householdArea prev |}
  | Edit_durationMonths v =>
      {| mode := mode prev; periodInputMode := periodInputMode prev;
         periodAmount := periodAmount prev; totalRepairCost := totalRepairCost prev;
         accumulationRate := accumulationRate prev; durationMonths := v;
         startYear := startYear prev; endYear := endYear prev;
         totalComplexArea := totalComplexArea prev; householdArea := householdArea prev |}
  | Edit_startYear v =>
      {| mode := mode prev; periodInputMode := periodInputMode prev;
         periodAmount := periodAmount prev; totalRepairCost := totalRepairCost prev;
         accumulationRate := accumulationRate prev; durationMonths := durationMonths prev;
         startYear := v; endYear := endYear prev;
         totalComplexArea := totalComplexArea prev; householdArea := householdArea prev |}
  | Edit_endYear v =>
      {| mode := mode prev; periodInputMode := periodInputMode prev;
         periodAmount := periodAmount prev; totalRepairCost := totalRepairCost prev;
         accumulationRate := accumulationRate prev; durationMonths := durationMonths prev;
         startYear := startYear prev; endYear := v;
         totalComplexArea := totalComplexArea prev; householdArea := householdArea prev |}
  | Edit_totalComplexArea v =>
      {| mode := mode prev; periodInputMode := periodInputMode prev;
         periodAmount := periodAmount prev; totalRepairCost := totalRepairCost prev;
         accumulationRate := accumulationRate prev; durationMonths := durationMonths prev;
         startYear := startYear prev; endYear := endYear prev;
         totalComplexArea := v; householdArea := householdArea prev |}
  | Edit_householdArea v =>
      {| mode := mode prev; periodInputMode := periodInputMode prev;
         periodAmount := periodAmount prev; totalRepairCost := totalRepairCost prev;
         accumulationRate := accumulationRate prev; durationMonths := durationMonths prev;
         startYear := startYear prev; endYear := endYear prev;
         totalComplexArea := totalComplexArea prev; householdArea := v |}
  end.

(** The updater passed to [setInputs] by [handleInputChange]: the assignment,
    and for the key [durationMonths] the one-way sync of the end year. *)
Definition handleInputChange (e : FieldEdit) (prev : CalculationInputs)
  : CalculationInputs :=
  let newInputs := assign e prev in
  match e with
  | Edit_durationMonths value =>
      let durationInYears := Math_max 1 (Math_round (value / 12)) in
      match startYear newInputs with
      | Some start =>
          if truthy start
          then assign (Edit_endYear (Some (start + durationInYears - 1))) newInputs
          else newInputs
      | None => newInputs
      end
  | _ => newInputs
  end.

(** ** Range edits ([handlePeriodRangeChange], [src/App.tsx])

    [type: 'start' | 'end'].  [currentYear] stands for
    [new Date().getFullYear()], read when the stored start year is falsy. *)

Inductive RangeBoundary := start | end_.

Definition handlePeriodRangeChange (currentYear : number)
    (type : RangeBoundary) (year : number) (prev : CalculationInputs)
  : CalculationInputs :=
  let newStart := or_else (startYear prev) currentYear in
  let newEnd := or_else (endYear prev) newStart in
  let '(newStart, newEnd) :=
    match type with
    | start =>
        let newStart := year in
        if gt newStart newEnd then (newStart, newStart) else (newStart, newEnd)
    | end_ =>
        let newEnd := year in
        if lt newEnd newStart then (newEnd, newEnd) else (newStart, newEnd)
    end in
  {| mode := mode prev; periodInputMode := periodInputMode prev;
     periodAmount := periodAmount prev; totalRepairCost := totalRepairCost prev;
     accumulationRate := accumulationRate prev;
     durationMonths := (newEnd - newStart + 1) * 12;
     startYear := Some newStart; endYear := Some newEnd;
     totalComplexArea := totalComplexArea prev; householdArea := householdArea prev |}.

(** The boundaries a range edit starts from (the first two lines of the
    updater): a falsy start year is replaced by the current year, a falsy end
    year by that start. *)
Definition resolvedStart (currentYear : number) (prev : CalculationInputs) : number :=
  or_else (startYear prev) currentYear.

Definition resolvedEnd (currentYear : number) (prev : CalculationInputs) : number :=
  or_else (endYear prev) (resolvedStart currentYear prev).

(** ** The name-based area lookup ([searchApartmentTotalArea],
    [src/services/geminiService.ts])

    The function awaits one reply of the model API and post-processes it.
    The reply is the input of the embedding; everything after the [await] is
    the function below. *)

Module Lookup.

Record Source := { title : string; uri : string }.

(** The value returned to the caller. *)
Record Response := {
  totalArea : number;
  householdArea : number;
  found : bool;
  sources : list Source
}.

(** [chunk.web], with its optional [title] and [uri]. *)
Record Web := { web_title : option string; web_uri : option string }.

(** A property of the parsed JSON object, as the two tests
    [json.f && typeof json.f === 'number'] see it. *)
Inductive JsonField :=
| JNumber (n : number)
| JNotNumber.

(** [JSON.parse(text)] and the reading of the two properties: one of them
    throws (a text that is not JSON, or the value [null]), or the two
    properties are read. *)
Inductive Json :=
| JsonThrows
| JsonObject (totalComplexArea householdArea : JsonField).

(** What [await ai.models.generateContent(...)] produces: an exception
    (also when [getClient] throws), or a response with its text, parsed,
    and its grounding chunks ([None] for a missing text or chunk list). *)
Inductive ApiReply :=
| ApiThrows
| ApiResponse (text : option Json) (groundingChunks : option (list (option Web))).

(** [s || d] on strings: the empty string and [undefined] are falsy. *)
Definition string_or (s : option string) (d : string) : string :=
  match s with
  | Some EmptyString | None => d
  | Some v => v
  end.

Definition extractSources (groundingChunks : list (option Web)) : list Source :=
  flat_map
    (fun chunk =>
       match chunk with
       | Some web =>
           [{| title := string_or (web_title web) "Web Source";
               uri := string_or (web_uri web) "" |}]
       | None => []
       end)
    groundingChunks.

(** [json.f && typeof json.f === 'number'] guards the assignment. *)
Definition numberField (f : JsonField) (current : number) : number :=
  match f with
  | JNumber n => if truthy n then n else current
  | JNotNumber => current
  end.

Definition searchApartmentTotalArea (reply : ApiReply) : Response :=
  match reply with
  | ApiThrows =>
      {| totalArea := 0; householdArea := 0; found := false; sources := [] |}
  | ApiResponse text groundingChunks =>
      let json := match text with Some j => j | None => JsonObject JNotNumber JNotNumber end in
      let chunks := match groundingChunks with Some l => l | None => [] end in
      let sources' := extractSources chunks in
      match json with
      | JsonObject fTotal fHousehold =>
          let totalArea' := numberField fTotal 0 in
          let householdArea' := numberField fHousehold 0 in
          let found' := gt totalArea' 0 || gt householdArea' 0 in
          {| totalArea := totalArea'; householdArea := householdArea';
             found := found'; sources := sources' |}
      | JsonThrows =>
          {| totalArea := 0; householdArea := 0; found := false; sources := sources' |}
      end
  end.

End Lookup.

(** ** The component state and its two asynchronous handlers ([src/App.tsx])

    The state of [App] is the tuple of its [useState] cells.  The effect
    [useEffect(() => calculate(), [inputs])] re-runs [calculate] whenever
    [inputs] is replaced, so [setInputs] below stores the new inputs together
    with the result derived from them. *)

Inductive AdviceStatus := IDLE | LOADING | SUCCESS | ERROR.

(** The texts shown under the search box, by the branch that sets them. *)
Inductive SearchMessage :=
| NoMessage
| EnterComplexName
| BothAreasEntered (householdArea : number)
| OnlyTotalAreaFound
| OnlyHouseholdAreaFound
| AreasNotFound
| SearchFailed.

Record AppState := {
  inputs : CalculationInputs;
  result : option CalculationResult;
  advice : string;
  adviceStatus : AdviceStatus;
  aptName : string;
  isSearching : bool;
  searchSources : list Lookup.Source;
  searchMessage : SearchMessage
}.

Definition setInputs (updater : CalculationInputs -> CalculationInputs)
    (st : AppState) : AppState :=
  let inputs' := updater (inputs st) in
  {| inputs := inputs'; result := calculate inputs';
     advice := advice st; adviceStatus := adviceStatus st;
     aptName := aptName st; isSearching := isSearching st;
     searchSources := searchSources st; searchMessage := searchMessage st |}.

Definition setAdvice (text : string) (status : AdviceStatus) (st : AppState) : AppState :=
  {| inputs := inputs st; result := result st;
     advice := text; adviceStatus := status;
     aptName := aptName st; isSearching := isSearching st;
     searchSources := searchSources st; searchMessage := searchMessage st |}.

Definition setSearch (searching : bool) (srcs : list Lookup.Source)
    (message : SearchMessage) (st : AppState) : AppState :=
  {| inputs := inputs st; result := result st;
     advice := advice st; adviceStatus := adviceStatus st;
     aptName := aptName st; isSearching := searching;
     searchSources := srcs; searchMessage := message |}.

(** What an awaited promise settles to. *)
Inductive Settled (A : Type) :=
| Resolved (value : A)
| Rejected.
Arguments Resolved {A} value.
Arguments Rejected {A}.

Section Handlers.

(** [String.prototype.trim]. *)
Variable trim : string -> string.

(** [handleAptSearch] up to its [await]: the state, and whether the lookup
    was requested. *)
Definition handleAptSearch_request (st : AppState) : AppState * bool :=
  match trim (aptName st) with
  | EmptyString => (setSearch (isSearching st) (searchSources st) EnterComplexName st, false)
  | _ => (setSearch true [] NoMessage st, true)
  end.

End Handlers.

(** [handleAptSearch] from its [await] on: the [try] body on the resolved
    response, the [catch] on a rejection, then [finally]. *)
Definition handleAptSearch_settled (outcome : Settled Lookup.Response)
    (st : AppState) : AppState :=
  match outcome with
  | Resolved r =>
      let totalArea := Lookup.totalArea r in
      let householdArea := Lookup.householdArea r in
      let st := setSearch (isSearching st) (Lookup.sources r) (searchMessage st) st in
      let '(st, successCount) :=
        if Lookup.found r then
          let '(st, successCount) :=
            if gt totalArea 0
            then (setInputs (handleInputChange (Edit_totalComplexArea totalArea)) st, 1%nat)
            else (st, 0%nat) in
          if gt householdArea 0
          then (setInputs (handleInputChange (Edit_householdArea householdArea)) st, S successCount)
          else (st, successCount)
        else (st, 0%nat) in
      let message :=
        match successCount with
        | 2%nat => BothAreasEntered householdArea
        | 1%nat => if gt totalArea 0 then OnlyTotalAreaFound else OnlyHouseholdAreaFound
        | _ => AreasNotFound
        end in
      setSearch false (searchSources st) message st
  | Rejected =>
      setSearch false (searchSources st) SearchFailed st
  end.

(** [handleConsultAI] up to its [await]: nothing happens without a result. *)
Definition handleConsultAI_request (st : AppState) : AppState * bool :=
  match result st with
  | None => (st, false)
  | Some _ => (setAdvice "" LOADING st, true)
  end.

(** The text shown when [getFinancialAdvice] rejects. *)
Definition adviceErrorText : string :=
  "오류가 발생했습니다. 잠시 후 다시 시도해주세요.".

(** [handleConsultAI] from its [await] on. *)
Definition handleConsultAI_settled (outcome : Settled string) (st : AppState)
  : AppState :=
  match outcome with
  | Resolved adviceText => setAdvice adviceText SUCCESS st
  | Rejected => setAdvice adviceErrorText ERROR st
  end.

(** The state [App] starts from ([useState] defaults). *)
Definition initialInputs (currentYear : number) : CalculationInputs :=
  {| mode := RATE; periodInputMode := DURATION;
     periodAmount := 0; totalRepairCost := 0; accumulationRate := 0;
     durationMonths := 60;
     startYear := Some currentYear; endYear := Some (currentYear + 4);
     totalComplexArea := 0; householdArea := 0 |}.

Definition initialState (currentYear : number) : AppState :=
  {| inputs := initialInputs currentYear; result := None;
     advice := ""; adviceStatus := IDLE;
     aptName := ""; isSearching := false;
     searchSources := []; searchMessage := NoMessage |}.

(** ** Vocabulary of the specification *)

(** The mode-specific precondition of the derivation. *)
Definition modeSufficient (i : CalculationInputs) : Prop :=
  match mode i with
  | RATE => 0 < totalRepairCost i /\ 0 < accumulationRate i
  | AMOUNT => 0 < periodAmount i
  end.

(** The preconditions on every field but the duration. *)
Definition othersSufficient (i : CalculationInputs) : Prop :=
  0 < totalComplexArea i /\ 0 < householdArea i /\ modeSufficient i.

(** Sufficient inputs: all preconditions of the derivation hold. *)
Definition sufficient (i : CalculationInputs) : Prop :=
  0 < durationMonths i /\ othersSufficient i.

(** Insufficient inputs: one of the preconditions fails. *)
Definition insufficient (i : CalculationInputs) : Prop :=
  durationMonths i <= 0 \/ totalComplexArea i <= 0 \/ householdArea i <= 0 \/
  match mode i with
  | RATE => totalRepairCost i <= 0 \/ accumulationRate i <= 0
  | AMOUNT => periodAmount i <= 0
  end.


(** A whole number. *)
Definition whole (x : number) : Prop := exists z : Z, x == inject_Z z.

(** [d] is [12 * k] for an integer [k]. *)
Definition wholeYears (d : number) : Prop := exists k : Z, d == 12 * inject_Z k.

(** The worked example of the specification, in RATE mode and in AMOUNT
    mode. *)
Definition rateExample : CalculationInputs :=
  {| mode := RATE; periodInputMode := DURATION;
     periodAmount := 0; totalRepairCost := 10000000000; accumulationRate := 20;
     durationMonths := 60; startYear := Some 2025; endYear := Some 2029;
     totalComplexArea := 150000; householdArea := 84.9 |}.

Definition amountExample : CalculationInputs :=
  {| mode := AMOUNT; periodInputMode := DURATION;
     periodAmount := 2000000000; totalRepairCost := 0; accumulationRate := 0;
     durationMonths := 60; startYear := Some 2025; endYear := Some 2029;
     totalComplexArea := 150000; householdArea := 84.9 |}.

(** The range 2025 to 2030 of the specification's examples. *)
Definition rangeExample : CalculationInputs :=
  {| mode := RATE; periodInputMode := RANGE;
     periodAmount := 0; totalRepairCost := 10000000000; accumulationRate := 20;
     durationMonths := 72; startYear := Some 2025; endYear := Some 2030;
     totalComplexArea := 150000; householdArea := 84.9 |}.

(** The worked example with the household area left blank. *)
Definition blankHouseholdExample : CalculationInputs :=
  assign (Edit_householdArea 0) rateExample.

(** The session of the worked example while the areas are still blank and a
    lookup is in flight, and a reply of the model API that carries both
    areas. *)
Definition areasBlankExample : CalculationInputs :=
  assign (Edit_totalComplexArea 0) (assign (Edit_householdArea 0) rateExample).

Definition lookupPending : AppState :=
  setSearch true [] NoMessage
    (setInputs (fun _ => areasBlankExample) (initialState 2026)).

Definition bothAreasReply : Lookup.ApiReply :=
  Lookup.ApiResponse
    (Some (Lookup.JsonObject (Lookup.JNumber 150000) (Lookup.JNumber 84.9)))
    None.

(** ** The derivation over IEEE doubles

    [calculate] once more, on binary64 floating-point numbers, the arithmetic
    the program runs on.  It serves to evaluate the worked example with the
    rounding of doubles; the properties below are stated over the exact
    model. *)

Module Binary64.

Record CalculationInputs := {
  mode : CalculationMode;
  periodInputMode : PeriodInputMode;
  periodAmount : float;
  totalRepairCost : float;
  accumulationRate : float;
  durationMonths : float;
  startYear : option float;
  endYear : option float;
  totalComplexArea : float;
  householdArea : float
}.

Record CalculationResult := {
  monthlyTotalTarget : float;
  monthlyRatePerSqm : float;
  householdMonthlyFee : float;
  periodTargetAmount : float
}.

Definition calculate (inputs : CalculationInputs) : option CalculationResult :=
  if PrimFloat.leb (durationMonths inputs) 0
     || PrimFloat.leb (totalComplexArea inputs) 0
     || PrimFloat.leb (householdArea inputs) 0
  then None
  else
    let target :=
      match mode inputs with
      | RATE =>
          if PrimFloat.leb (totalRepairCost inputs) 0
             || PrimFloat.leb (accumulationRate inputs) 0
          then None
          else Some (totalRepairCost inputs * (accumulationRate inputs / 100))%float
      | AMOUNT =>
          if PrimFloat.leb (periodAmount inputs) 0
          then None
          else Some (periodAmount inputs)
      end in
    match target with
    | None => None
    | Some periodTargetAmount' =>
        let monthlyTotalTarget' := (periodTargetAmount' / durationMonths inputs)%float in
        let monthlyRatePerSqm' := (monthlyTotalTarget' / totalComplexArea inputs)%float in
        let householdMonthlyFee' := (monthlyRatePerSqm' * householdArea inputs)%float in
        Some {| periodTargetAmount := periodTargetAmount';
                monthlyTotalTarget := monthlyTotalTarget';
                monthlyRatePerSqm := monthlyRatePerSqm';
                householdMonthlyFee := householdMonthlyFee' |}
    end.

(** 84.9 is read as the nearest double, [0x1.539999999999ap+6]. *)
Definition rateExample : CalculationInputs :=
  {| mode := RATE; periodInputMode := DURATION;
     periodAmount := 0; totalRepairCost := 10000000000; accumulationRate := 20;
     durationMonths := 60; startYear := Some 2025%float; endYear := Some 2029%float;
     totalComplexArea := 150000; householdArea := 0x1.539999999999ap+6 |}.

Definition amountExample : CalculationInputs :=
  {| mode := AMOUNT; periodInputMode := DURATION;
     periodAmount := 2000000000; totalRepairCost := 0; accumulationRate := 0;
     durationMonths := 60; startYear := Some 2025%float; endYear := Some 2029%float;
     totalComplexArea := 150000; householdArea := 0x1.539999999999ap+6 |}.

End Binary64.

(** ** The number field ([handleChange], [src/components/InputGroup.tsx])

    The widget keeps the text of the field ([localValue]) and the last
    number it sent to its parent ([lastEmittedValue]).  [handleChange] gets
    the text of the field after a keystroke or a paste.  [handleBlur] and
    the synchronising effect format numbers with [toLocaleString] and are
    not part of the embedding. *)

Module InputGroup.

Record State := { localValue : string; lastEmittedValue : number }.

(** [\d]: an ASCII digit. *)
Definition isDigit (c : ascii) : bool :=
  (48 <=? N_of_ascii c)%N && (N_of_ascii c <=? 57)%N.

Definition digitValue (c : ascii) : N := (N_of_ascii c - 48)%N.

(** The characters outside the class [[^\d.,]]. *)
Definition allowed (c : ascii) : bool :=
  isDigit c || Ascii.eqb c "." || Ascii.eqb c ",".

(** [s.replace(/class/g, '')]: every character of the class is removed. *)
Fixpoint remove (class : ascii -> bool) (s : string) : string :=
  match s with
  | EmptyString => EmptyString
  | String c s' => if class c then remove class s' else String c (remove class s')
  end.

Fixpoint occurrences (c : ascii) (s : string) : nat :=
  match s with
  | EmptyString => 0%nat
  | String c' s' => ((if Ascii.eqb c c' then 1 else 0) + occurrences c s')%nat
  end.

(** The digits a text starts with, and the rest of the text. *)
Fixpoint leadingDigits (s : string) : list N * string :=
  match s with
  | EmptyString => ([], EmptyString)
  | String c s' =>
      if isDigit c
      then let '(ds, rest) := leadingDigits s' in (digitValue c :: ds, rest)
      else ([], s)
  end.

(** The number written by a list of decimal digits. *)
Definition decimalValue (digits : list N) : N :=
  fold_left (fun acc d => 10 * acc + d)%N digits 0%N.

(** [parseFloat] on a text of digits and dots, the only texts [handleChange]
    passes to it: the longest prefix of the form digits, digits-dot-digits,
    digits-dot or dot-digits is read as a decimal; [None] is NaN, for a
    prefix without a digit. *)
Definition parseFloat (s : string) : option number :=
  let '(whole, rest) := leadingDigits s in
  let fraction :=
    match rest with
    | String "."%char rest' => fst (leadingDigits rest')
    | _ => []
    end in
  match whole ++ fraction with
  | [] => None
  | digits =>
      Some (Z.of_N (decimalValue digits)
            # Nat.iter (List.length fraction) (Pos.mul 10) 1%positive)
  end.

(** The number [handleChange] sends for a text it accepts. *)
Definition numberOf (cleanInput : string) : number :=
  match parseFloat (remove (Ascii.eqb ",") cleanInput) with
  | Some numericValue => numericValue
  | None => 0
  end.

(** The new state of the widget, and the number passed to [onChange] if the
    text is accepted. *)
Definition handleChange (inputValue : string) (w : State) : State * option number :=
  let cleanInput := remove (fun c => negb (allowed c)) inputValue in
  if (2 <? S (occurrences "." cleanInput))%nat
  then (w, None)
  else
    let newValue := numberOf cleanInput in
    ({| localValue := cleanInput; lastEmittedValue := newValue |}, Some newValue).

End InputGroup.

(** ** The callbacks of the page ([src/App.tsx], the JSX of [App])

    One event for each callback the page wires to a control, with the value
    the control passes.  Every run of the page is a sequence of such events;
    the controls a state does not render only make fewer sequences
    possible. *)

Inductive Event :=
| SelectMode (value : CalculationMode)
| SelectPeriodInputMode (value : PeriodInputMode)
| ChangeTotalRepairCost (val : number)
| ChangeAccumulationRate (val : number)
| ChangePeriodAmount (val : number)
| ChangeDurationMonths (val : number)
| ChangePeriodRange (type : RangeBoundary) (val : number)
| ChangeAptName (value : string)
| ChangeTotalComplexArea (val : number)
| ChangeHouseholdArea (val : number)
| AptSearch
| AptSearchSettled (outcome : Settled Lookup.Response)
| ConsultAI
| ConsultAISettled (outcome : Settled string).

Definition setAptName (name : string) (st : AppState) : AppState :=
  {| inputs := inputs st; result := result st;
     advice := advice st; adviceStatus := adviceStatus st;
     aptName := name; isSearching := isSearching st;
     searchSources := searchSources st; searchMessage := searchMessage st |}.

Definition dispatch (trim : string -> string) (currentYear : number)
    (ev : Event) (st : AppState) : AppState :=
  match ev with
  | SelectMode value => setInputs (handleInputChange (Edit_mode value)) st
  | SelectPeriodInputMode value =>
      setInputs (handleInputChange (Edit_periodInputMode value)) st
  | ChangeTotalRepairCost val =>
      setInputs (handleInputChange (Edit_totalRepairCost val)) st
  | ChangeAccumulationRate val =>
      setInputs (handleInputChange (Edit_accumulationRate val)) st
  | ChangePeriodAmount val => setInputs (handleInputChange (Edit_periodAmount val)) st
  | ChangeDurationMonths val =>
      setInputs (handleInputChange (Edit_durationMonths val)) st
  | ChangePeriodRange type val =>
      setInputs (handlePeriodRangeChange currentYear type val) st
  | ChangeAptName value => setAptName value st
  | ChangeTotalComplexArea val =>
      setInputs (handleInputChange (Edit_totalComplexArea val)) st
  | ChangeHouseholdArea val =>
      setInputs (handleInputChange (Edit_householdArea val)) st
  | AptSearch => fst (handleAptSearch_request trim st)
  | AptSearchSettled outcome => handleAptSearch_settled outcome st
  | ConsultAI => fst (handleConsultAI_request st)
  | ConsultAISettled outcome => handleConsultAI_settled outcome st
  end.

(** The states of a session: the initial state of some year, and every state
    an event leads to. *)
Inductive reachable (trim : string -> string) : AppState -> Prop :=
| reachable_initial (currentYear : number) :
    reachable trim (initialState currentYear)
| reachable_dispatch (currentYear : number) (ev : Event) (st : AppState) :
    reachable trim st -> reachable trim (dispatch trim currentYear ev st).

(** Typing into a year field: each key is appended to the text the field
    shows, [handleChange] reads the new text, and the number it sends, if
    any, goes to [handlePeriodRangeChange]. *)
Fixpoint typeYear (currentYear : number) (type : RangeBoundary)
    (keys : list ascii) (w : InputGroup.State) (i : CalculationInputs)
  : CalculationInputs :=
  match keys with
  | [] => i
  | key :: keys' =>
      let inputValue := (InputGroup.localValue w ++ String key EmptyString)%string in
      let '(w', sent) := InputGroup.handleChange inputValue w in
      let i' :=
        match sent with
        | Some val => handlePeriodRangeChange currentYear type val i
        | None => i
        end in
      typeYear currentYear type keys' w' i'
  end.

(** A year field whose text is selected, or empty: the next key replaces
    it. *)
Definition emptyField : InputGroup.State :=
  {| InputGroup.localValue := EmptyString; InputGroup.lastEmittedValue := 0 |}.

(** Every character of a text passes a test. *)
Fixpoint everyChar (p : ascii -> bool) (s : string) : bool :=
  match s with
  | EmptyString => true
  | String c s' => p c && everyChar p s'
  end.

(** The characters [handleChange] reads a number from. *)
Definition digitOrDot (c : ascii) : bool := InputGroup.isDigit c || Ascii.eqb c ".".

(** [format] of [InputGroup] without thousands separators, on a natural
    number below 2^53: these are doubles, and [num.toString()] writes each
    with all its decimal digits. *)
Definition toStringNatural (n : nat) : string :=
  NilEmpty.string_of_uint (Nat.to_uint n).

(** ** Where the exact model and doubles agree

    A whole number of magnitude at most 10^15.  From such years and months
    the period reconciler forms only whole numbers that doubles hold
    exactly (differences and sums below 2^53, and twelve times a whole
    number below 2^53 / 3), so that on them the exact arithmetic of the
    model is the arithmetic of the program. *)
Definition safeWhole (x : number) : Prop :=
  exists z : Z, x == inject_Z z /\ (Z.abs z <= 10 ^ 15)%Z.

Definition safeWholeIfPresent (x : option number) : Prop :=
  match x with
  | Some v => safeWhole v
  | None => True
  end.

(** An event whose year, if it carries one, is such a whole number. *)
Definition wholeYearEvent (ev : Event) : Prop :=
  match ev with
  | ChangePeriodRange _ val => safeWhole val
  | _ => True
  end.

(** The states of a session in which the current year and every year
    entered are such whole numbers. *)
Inductive reachableWholeYears (trim : string -> string) : AppState -> Prop :=
| wholeYears_initial (currentYear : number) :
    safeWhole currentYear ->
    reachableWholeYears trim (initialState currentYear)
| wholeYears_dispatch (currentYear : number) (ev : Event) (st : AppState) :
    safeWhole currentYear -> wholeYearEvent ev ->
    reachableWholeYears trim st ->
    reachableWholeYears trim (dispatch trim currentYear ev st).

(** ** Range edits over IEEE doubles

    [handlePeriodRangeChange] once more, on binary64 numbers, to evaluate
    range edits with the rounding of the program.  A falsy number is 0, -0
    or NaN. *)

Module Binary64Range.

Definition truthy (x : float) : bool :=
  negb (PrimFloat.eqb x 0 || PrimFloat.is_nan x).

Definition or_else (x : option float) (d : float) : float :=
  match x with
  | Some v => if truthy v then v else d
  | None => d
  end.

Definition handlePeriodRangeChange (currentYear : float)
    (type : RangeBoundary) (year : float) (prev : Binary64.CalculationInputs)
  : Binary64.CalculationInputs :=
  let newStart := or_else (Binary64.startYear prev) currentYear in
  let newEnd := or_else (Binary64.endYear prev) newStart in
  let '(newStart, newEnd) :=
    match type with
    | start =>
        let newStart := year in
        if PrimFloat.ltb newEnd newStart
        then (newStart, newStart) else (newStart, newEnd)
    | end_ =>
        let newEnd := year in
        if PrimFloat.ltb newEnd newStart
        then (newEnd, newEnd) else (newStart, newEnd)
    end in
  {| Binary64.mode := Binary64.mode prev;
     Binary64.periodInputMode := Binary64.periodInputMode prev;
     Binary64.periodAmount := Binary64.periodAmount prev;
     Binary64.totalRepairCost := Binary64.totalRepairCost prev;
     Binary64.accumulationRate := Binary64.accumulationRate prev;
     Binary64.durationMonths := ((newEnd - newStart + 1) * 12)%float;
     Binary64.startYear := Some newStart; Binary64.endYear := Some newEnd;
     Binary64.totalComplexArea := Binary64.totalComplexArea prev;
     Binary64.householdArea := Binary64.householdArea prev |}.

End Binary64Range.

(** The whole number a double holds, when it is one with a non-negative
    exponent (every double of magnitude 2^52 or more) or zero. *)
Definition integerOfDouble (x : float) : option Z :=
  match Prim2SF x with
  | S754_zero _ => Some 0%Z
  | S754_finite sign m e =>
      if (0 <=? e)%Z
      then Some ((if sign then -1 else 1) * Z.pos m * 2 ^ e)%Z
      else None
  | _ => None
  end.

(** * Properties *)

(** ** Comparisons and rounding *)

Lemma le_true (a b : number) : le a b = true <-> a <= b.
Proof. unfold le. apply Qle_bool_iff. Qed.

Lemma le_false (a b : number) : le a b = false <-> b < a.
Proof.
  unfold le. split; intro H.
  - apply Qnot_le_lt. intro Hle. apply Qle_bool_iff in Hle. congruence.
  - destruct (Qle_bool a b) eqn:E; [|reflexivity].
    apply Qle_bool_iff in E. exfalso. apply (Qlt_not_le _ _ H E).
Qed.

Lemma lt_true (a b : number) : lt a b = true <-> a < b.
Proof. unfold lt. rewrite negb_true_iff. apply le_false. Qed.

Lemma lt_false (a b : number) : lt a b = false <-> b <= a.
Proof. unfold lt. rewrite negb_false_iff. apply le_true. Qed.

Lemma gt_true (a b : number) : gt a b = true <-> b < a.
Proof. apply lt_true. Qed.

Lemma gt_false (a b : number) : gt a b = false <-> a <= b.
Proof. apply lt_false. Qed.

Lemma truthy_true (x : number) : truthy x = true <-> ~ x == 0.
Proof.
  unfold truthy. rewrite negb_true_iff. split; intro H.
  - intro E. apply Qeq_bool_iff in E. congruence.
  - destruct (Qeq_bool x 0) eqn:E; [|reflexivity].
    apply Qeq_bool_iff in E. contradiction.
Qed.

Lemma truthy_false (x : number) : truthy x = false <-> x == 0.
Proof.
  unfold truthy. rewrite negb_false_iff. apply Qeq_bool_iff.
Qed.

(** Tests of the program read as propositions, in hypotheses. *)
Ltac tests_to_props :=
  repeat match goal with
    | H : le _ _ = true |- _ => apply le_true in H
    | H : le _ _ = false |- _ => apply le_false in H
    | H : lt _ _ = true |- _ => apply lt_true in H
    | H : lt _ _ = false |- _ => apply lt_false in H
    | H : gt _ _ = true |- _ => apply gt_true in H
    | H : gt _ _ = false |- _ => apply gt_false in H
    end.

Lemma or_else_set (x : option number) (d v : number) :
  x = Some v -> truthy v = true -> or_else x d = v.
Proof. intros -> H. simpl. now rewrite H. Qed.

(** [Math_round x] is the integer within one half of [x], the upper one at a
    tie. *)
Lemma Math_round_nearest (x : number) :
  whole (Math_round x) /\ x - (1 # 2) < Math_round x /\ Math_round x <= x + (1 # 2).
Proof.
  unfold Math_round. split; [eexists; reflexivity|]. split.
  - pose proof (Qlt_floor (x + (1 # 2))) as H.
    rewrite inject_Z_plus in H. change (inject_Z 1) with 1 in H. lra.
  - apply Qfloor_le.
Qed.

Example Math_round_examples :
  Math_round 2.5 = 3 /\ Math_round 2.4 = 2 /\ Math_round (-2.5) = -2 /\
  Math_round (65 / 12) = 5 /\ Math_round (5 / 12) = 0 /\
  Math_max 1 (Math_round (5 / 12)) = 1.
Proof. repeat split. Qed.

Lemma Math_max_upper (a b : number) :
  a <= Math_max a b /\ b <= Math_max a b /\ (Math_max a b = a \/ Math_max a b = b).
Proof.
  unfold Math_max. destruct (Qle_bool a b) eqn:E.
  - apply Qle_bool_iff in E. repeat split; auto; lra.
  - apply (le_false a b) in E. repeat split; auto; lra.
Qed.

(** ** The fee derivation *)

(** On sufficient inputs [calculate] returns the record built by the four
    formulas. *)
Lemma calculate_sufficient (i : CalculationInputs) :
  sufficient i ->
  let periodTargetAmount' :=
    match mode i with
    | RATE => totalRepairCost i * (accumulationRate i / 100)
    | AMOUNT => periodAmount i
    end in
  calculate i =
    Some {| periodTargetAmount := periodTargetAmount';
            monthlyTotalTarget := periodTargetAmount' / durationMonths i;
            monthlyRatePerSqm := periodTargetAmount' / durationMonths i / totalComplexArea i;
            householdMonthlyFee :=
              periodTargetAmount' / durationMonths i / totalComplexArea i * householdArea i |}.
Proof.
  intros (Hd & Ht & Hh & Hm). unfold calculate.
  apply le_false in Hd, Ht, Hh. rewrite Hd, Ht, Hh. simpl.
  unfold modeSufficient in Hm. destruct (mode i).
  - destruct Hm as [Hc Hr]. apply le_false in Hc, Hr. rewrite Hc, Hr. reflexivity.
  - apply le_false in Hm. rewrite Hm. reflexivity.
Qed.

(** On insufficient inputs [calculate] returns nothing. *)
Lemma calculate_none (i : CalculationInputs) :
  insufficient i -> calculate i = None.
Proof.
  unfold insufficient, calculate.
  intros [H | [H | [H | H]]].
  - apply le_true in H. now rewrite H.
  - apply le_true in H. rewrite H. now rewrite orb_true_r.
  - apply le_true in H. rewrite H. now rewrite orb_true_r.
  - destruct (_ || _ || _); [reflexivity|].
    destruct (mode i).
    + destruct H as [H | H]; apply le_true in H; rewrite H;
        [reflexivity | now rewrite orb_true_r].
    + apply le_true in H. now rewrite H.
Qed.

(** Every input set is sufficient or insufficient. *)
Lemma sufficient_or_insufficient (i : CalculationInputs) :
  sufficient i \/ insufficient i.
Proof.
  unfold sufficient, othersSufficient, modeSufficient, insufficient.
  destruct (Qlt_le_dec 0 (durationMonths i)); [|tauto].
  destruct (Qlt_le_dec 0 (totalComplexArea i)); [|tauto].
  destruct (Qlt_le_dec 0 (householdArea i)); [|tauto].
  destruct (mode i).
  - destruct (Qlt_le_dec 0 (totalRepairCost i)); [|tauto].
    destruct (Qlt_le_dec 0 (accumulationRate i)); tauto.
  - destruct (Qlt_le_dec 0 (periodAmount i)); tauto.
Qed.

(** C1.  For all inputs that satisfy the preconditions (positive duration,
    positive areas, positive mode-specific cost fields) the derivation
    produces a result whose [periodTargetAmount] is
    [totalRepairCost * (accumulationRate / 100)] in RATE mode and
    [periodAmount] in AMOUNT mode, whose [monthlyTotalTarget] is
    [periodTargetAmount / durationMonths], whose [monthlyRatePerSqm] is
    [monthlyTotalTarget / totalComplexArea] and whose [householdMonthlyFee]
    is [monthlyRatePerSqm * householdArea].  On the worked example
    (10,000,000,000 at 20 percent over 60 months, 150,000 and 84.9 square
    metres) the target is 2,000,000,000, and the three other figures are
    100,000,000/3, 2,000/9 and 56,600/3, which are 33,333,333.33, 222.22 and
    18,866.67 to the cent. *)
Theorem calculate_formulas :
  (forall i : CalculationInputs,
     sufficient i ->
     exists r,
       calculate i = Some r /\
       periodTargetAmount r =
         match mode i with
         | RATE => totalRepairCost i * (accumulationRate i / 100)
         | AMOUNT => periodAmount i
         end /\
       monthlyTotalTarget r = periodTargetAmount r / durationMonths i /\
       monthlyRatePerSqm r = monthlyTotalTarget r / totalComplexArea i /\
       householdMonthlyFee r = monthlyRatePerSqm r * householdArea i) /\
  (exists r,
     calculate rateExample = Some r /\
     periodTargetAmount r == 2000000000 /\
     monthlyTotalTarget r == 100000000 / 3 /\
     monthlyRatePerSqm r == 2000 / 9 /\
     householdMonthlyFee r == 56600 / 3 /\
     33333333.33 <= monthlyTotalTarget r <= 33333333.34 /\
     222.22 <= monthlyRatePerSqm r <= 222.23 /\
     18866.66 <= householdMonthlyFee r <= 18866.67).
Proof.
  split.
  - intros i Hi. eexists. split; [apply (calculate_sufficient i Hi)|].
    simpl. repeat split.
  - eexists. split; [reflexivity|]. simpl. repeat split; reflexivity || discriminate.
Qed.

Lemma calculate_formulas_witness :
  sufficient rateExample /\
  exists r,
    calculate rateExample = Some r /\
    periodTargetAmount r = 10000000000 * (20 / 100) /\
    monthlyTotalTarget r = periodTargetAmount r / 60 /\
    monthlyRatePerSqm r = monthlyTotalTarget r / 150000 /\
    householdMonthlyFee r = monthlyRatePerSqm r * 84.9.
Proof.
  assert (H : sufficient rateExample) by (repeat split; reflexivity).
  split; [exact H|].
  exact (proj1 calculate_formulas rateExample H).
Defined.

(** C2.  When one precondition fails (duration, total area or household area
    not positive; in RATE mode cost or rate not positive; in AMOUNT mode the
    amount not positive) the derivation returns no result, whatever the other
    fields hold.  [calculate] is a total function, so no exception stands in
    for the missing result; its tests are nested in the stated order, and a
    failing test decides the outcome before any later field is read.  The
    converse holds too: no result means a failed precondition. *)
Theorem calculate_insufficient :
  forall i : CalculationInputs,
    (durationMonths i <= 0 -> calculate i = None) /\
    (totalComplexArea i <= 0 -> calculate i = None) /\
    (householdArea i <= 0 -> calculate i = None) /\
    (mode i = RATE -> totalRepairCost i <= 0 \/ accumulationRate i <= 0 ->
     calculate i = None) /\
    (mode i = AMOUNT -> periodAmount i <= 0 -> calculate i = None) /\
    (calculate i = None -> insufficient i).
Proof.
  intro i. repeat split.
  - intro H. apply calculate_none. left. exact H.
  - intro H. apply calculate_none. right. left. exact H.
  - intro H. apply calculate_none. right. right. left. exact H.
  - intros Hm H. apply calculate_none. do 3 right. now rewrite Hm.
  - intros Hm H. apply calculate_none. do 3 right. now rewrite Hm.
  - intro H. destruct (sufficient_or_insufficient i) as [Hs | Hn]; [|exact Hn].
    pose proof (calculate_sufficient i Hs) as E. simpl in E. congruence.
Qed.

Lemma calculate_insufficient_witness :
  householdArea blankHouseholdExample <= 0 /\
  calculate blankHouseholdExample = None.
Proof.
  assert (H : householdArea blankHouseholdExample <= 0) by discriminate.
  split; [exact H|].
  exact (proj1 (proj2 (proj2 (calculate_insufficient blankHouseholdExample))) H).
Defined.



(** ** Range edits *)

(** The shape of the state after a range edit: both years are present, each
    is the entered year or the boundary the edit started from, they are in
    order, and the duration is computed from them. *)
Lemma range_edit_shape (currentYear : number) (type : RangeBoundary)
    (year : number) (prev : CalculationInputs) :
  let next := handlePeriodRangeChange currentYear type year prev in
  exists s e,
    startYear next = Some s /\ endYear next = Some e /\
    durationMonths next = (e - s + 1) * 12 /\
    s <= e /\
    (s = year \/ s = resolvedStart currentYear prev) /\
    (e = year \/ e = resolvedEnd currentYear prev).
Proof.
  unfold handlePeriodRangeChange, resolvedEnd, resolvedStart.
  set (s0 := or_else (startYear prev) currentYear).
  set (e0 := or_else (endYear prev) s0).
  destruct type.
  - destruct (gt year e0) eqn:G; simpl; tests_to_props.
    + exists year, year. repeat split; auto. lra.
    + exists year, e0. repeat split; auto.
  - destruct (lt year s0) eqn:L; simpl; tests_to_props.
    + exists year, year. repeat split; auto. lra.
    + exists s0, year. repeat split; auto.
Qed.

(** A range edit keeps every field that is not part of the period. *)
Lemma range_edit_frame (currentYear : number) (type : RangeBoundary)
    (year : number) (prev : CalculationInputs) :
  let next := handlePeriodRangeChange currentYear type year prev in
  mode next = mode prev /\ periodInputMode next = periodInputMode prev /\
  periodAmount next = periodAmount prev /\
  totalRepairCost next = totalRepairCost prev /\
  accumulationRate next = accumulationRate prev /\
  totalComplexArea next = totalComplexArea prev /\
  householdArea next = householdArea prev.
Proof.
  unfold handlePeriodRangeChange.
  destruct type; [destruct (gt _ _) | destruct (lt _ _)]; simpl; repeat split.
Qed.

(** After a range edit the duration is at least twelve months. *)
Lemma range_edit_at_least_a_year (currentYear : number) (type : RangeBoundary)
    (year : number) (prev : CalculationInputs) :
  12 <= durationMonths (handlePeriodRangeChange currentYear type year prev).
Proof.
  destruct (range_edit_shape currentYear type year prev)
    as (s & e & _ & _ & Hd & Hle & _).
  rewrite Hd. lra.
Qed.

(** C3.  After a range edit of either boundary both years are present and
    the duration is [(endYear - startYear + 1) * 12] of the new years,
    whatever the duration was before; a resulting range of 2025 to 2030 has
    a duration of 72 months, as when the end of 2025 to 2029 is edited to
    2030. *)
Theorem range_edit_duration :
  (forall currentYear type year prev,
     let next := handlePeriodRangeChange currentYear type year prev in
     exists s e,
       startYear next = Some s /\ endYear next = Some e /\
       durationMonths next = (e - s + 1) * 12) /\
  (forall currentYear type year prev d,
     handlePeriodRangeChange currentYear type year
       (assign (Edit_durationMonths d) prev)
     = handlePeriodRangeChange currentYear type year prev) /\
  (forall currentYear type year prev,
     let next := handlePeriodRangeChange currentYear type year prev in
     startYear next = Some 2025 -> endYear next = Some 2030 ->
     durationMonths next = 72) /\
  (let next := handlePeriodRangeChange 2026 end_ 2030 rateExample in
   startYear next = Some 2025 /\ endYear next = Some 2030 /\
   durationMonths next = 72).
Proof.
  split; [|split; [|split]].
  - intros cy type year prev next.
    destruct (range_edit_shape cy type year prev) as (s & e & Hs & He & Hd & _).
    exists s, e. auto.
  - reflexivity.
  - intros cy type year prev next Hs He.
    destruct (range_edit_shape cy type year prev) as (s & e & Hs' & He' & Hd & _).
    fold next in Hs', He', Hd. rewrite Hd.
    assert (s = 2025) by congruence. assert (e = 2030) by congruence.
    subst s e. reflexivity.
  - repeat split.
Qed.

Lemma range_edit_duration_witness :
  durationMonths (handlePeriodRangeChange 2026 end_ 2030 rateExample) = 72.
Proof.
  apply (proj1 (proj2 (proj2 range_edit_duration)) 2026 end_ 2030 rateExample);
    reflexivity.
Defined.

(** The boundaries a range edit starts from are the stored years when these
    are set. *)
Lemma resolvedStart_set (currentYear : number) (prev : CalculationInputs) (s : number) :
  startYear prev = Some s -> is_set (startYear prev) = true ->
  resolvedStart currentYear prev = s.
Proof.
  intros E H. rewrite E in H. simpl in H.
  unfold resolvedStart. now apply or_else_set.
Qed.

Lemma resolvedEnd_set (currentYear : number) (prev : CalculationInputs) (e : number) :
  endYear prev = Some e -> is_set (endYear prev) = true ->
  resolvedEnd currentYear prev = e.
Proof.
  intros E H. rewrite E in H. simpl in H.
  unfold resolvedEnd. now apply or_else_set.
Qed.

Lemma start_past_end (currentYear year : number) (prev : CalculationInputs) :
  let next := handlePeriodRangeChange currentYear start year prev in
  resolvedEnd currentYear prev < year ->
  startYear next = Some year /\ endYear next = Some year /\
  durationMonths next == 12.
Proof.
  intros next H. subst next.
  apply gt_true in H. unfold resolvedEnd, resolvedStart in H.
  unfold handlePeriodRangeChange. rewrite H. simpl.
  split; [reflexivity|]. split; [reflexivity|ring].
Qed.

Lemma end_before_start (currentYear year : number) (prev : CalculationInputs) :
  let next := handlePeriodRangeChange currentYear end_ year prev in
  year < resolvedStart currentYear prev ->
  startYear next = Some year /\ endYear next = Some year /\
  durationMonths next == 12.
Proof.
  intros next H. subst next.
  apply lt_true in H. unfold resolvedStart in H.
  unfold handlePeriodRangeChange. rewrite H. simpl.
  split; [reflexivity|]. split; [reflexivity|ring].
Qed.

(** C4.  After a range edit the start year is not after the end year, and
    the edited boundary holds the entered year: no edit is rejected.  A
    start year entered past the current end year pulls the end year up to
    it, and an end year entered below the current start year pulls the start
    year down to it; in both cases the period is the single year, of 12
    months.  The same holds against the boundary the edit falls back to when
    the stored year is blank.  Editing the start of 2025 to 2030 to 2032
    gives an end year of 2032 and 12 months. *)
Theorem range_edit_ordered :
  (forall currentYear type year prev,
     let next := handlePeriodRangeChange currentYear type year prev in
     exists s e, startYear next = Some s /\ endYear next = Some e /\ s <= e) /\
  (forall currentYear year prev,
     startYear (handlePeriodRangeChange currentYear start year prev) = Some year) /\
  (forall currentYear year prev,
     endYear (handlePeriodRangeChange currentYear end_ year prev) = Some year) /\
  (forall currentYear year prev e,
     let next := handlePeriodRangeChange currentYear start year prev in
     endYear prev = Some e -> is_set (endYear prev) = true -> e < year ->
     startYear next = Some year /\ endYear next = Some year /\
     durationMonths next == 12) /\
  (forall currentYear year prev s,
     let next := handlePeriodRangeChange currentYear end_ year prev in
     startYear prev = Some s -> is_set (startYear prev) = true -> year < s ->
     startYear next = Some year /\ endYear next = Some year /\
     durationMonths next == 12) /\
  (forall currentYear year prev,
     let next := handlePeriodRangeChange currentYear start year prev in
     resolvedEnd currentYear prev < year ->
     startYear next = Some year /\ endYear next = Some year /\
     durationMonths next == 12) /\
  (forall currentYear year prev,
     let next := handlePeriodRangeChange currentYear end_ year prev in
     year < resolvedStart currentYear prev ->
     startYear next = Some year /\ endYear next = Some year /\
     durationMonths next == 12) /\
  (forall currentYear,
     let next := handlePeriodRangeChange currentYear start 2032 rangeExample in
     startYear next = Some 2032 /\ endYear next = Some 2032 /\
     durationMonths next = 12).
Proof.
  split; [|split; [|split; [|split; [|split; [|split; [|split]]]]]].
  - intros cy type year prev next.
    destruct (range_edit_shape cy type year prev) as (s & e & Hs & He & _ & Hle & _).
    exists s, e. auto.
  - intros cy year prev. unfold handlePeriodRangeChange.
    destruct (gt _ _); reflexivity.
  - intros cy year prev. unfold handlePeriodRangeChange.
    destruct (lt _ _); reflexivity.
  - intros cy year prev e next E Hset H. apply start_past_end.
    now rewrite (resolvedEnd_set cy prev e E Hset).
  - intros cy year prev s next E Hset H. apply end_before_start.
    now rewrite (resolvedStart_set cy prev s E Hset).
  - intros cy year prev. apply start_past_end.
  - intros cy year prev. apply end_before_start.
  - intro cy. repeat split.
Qed.

Lemma range_edit_ordered_witness :
  let next := handlePeriodRangeChange 2026 start 2032 rangeExample in
  startYear next = Some 2032 /\ endYear next = Some 2032 /\
  durationMonths next == 12.
Proof.
  apply (proj1 (proj2 (proj2 (proj2 range_edit_ordered)))
           2026 2032 rangeExample 2030); reflexivity.
Defined.

(** ** Duration edits and mode switches *)

(** C5.  A duration edit stores the entered number of months as it is and
    leaves the start year alone.  When the start year is set (the guard
    [if (newInputs.startYear)]: present and not the blank year 0) the end
    year becomes [startYear + max(1, round(months / 12)) - 1]; otherwise the
    end year is left alone too.  The sync loses the months beyond whole
    years: 65 months from 2025 give the end year 2029, and the duration
    derived back from the range 2025 to 2029 is 60. *)
Theorem duration_edit_sync :
  (forall (months : number) (prev : CalculationInputs),
     let next := handleInputChange (Edit_durationMonths months) prev in
     durationMonths next = months /\
     startYear next = startYear prev /\
     (forall s, startYear prev = Some s -> is_set (startYear prev) = true ->
        endYear next = Some (s + Math_max 1 (Math_round (months / 12)) - 1)) /\
     (is_set (startYear prev) = false -> endYear next = endYear prev)) /\
  (let next := handleInputChange (Edit_durationMonths 65) rateExample in
   durationMonths next = 65 /\
   startYear next = Some 2025 /\
   endYear next = Some 2029 /\
   durationMonths (handlePeriodRangeChange 2026 end_ 2029 next) = 60).
Proof.
  split.
  - intros months prev next. subst next. unfold handleInputChange. simpl.
    destruct (startYear prev) as [s0|] eqn:Es; simpl.
    + destruct (truthy s0) eqn:T; simpl; rewrite ?Es.
      * split; [reflexivity|]. split; [reflexivity|]. split.
        -- intros s [= <-] _. reflexivity.
        -- discriminate.
      * split; [reflexivity|]. split; [reflexivity|]. split.
        -- discriminate.
        -- reflexivity.
    + split; [reflexivity|]. split; [reflexivity|]. split.
      * discriminate.
      * reflexivity.
  - repeat split.
Qed.

Lemma duration_edit_sync_witness :
  endYear (handleInputChange (Edit_durationMonths 65) rateExample)
  = Some (2025 + Math_max 1 (Math_round (65 / 12)) - 1).
Proof.
  apply (proj1 (proj2 (proj2 (proj1 duration_edit_sync 65 rateExample))) 2025);
    reflexivity.
Defined.

(** C8.  Switching the cost-basis mode or the period-input mode assigns that
    one field: every other field of the new state is the old one.  Switching
    the mode away and back to what it was gives the state back as a whole,
    so RATE to AMOUNT and back to RATE keeps [totalRepairCost],
    [accumulationRate] and [periodAmount]. *)
Theorem mode_switch_frame :
  (forall (m : CalculationMode) (prev : CalculationInputs),
     let next := handleInputChange (Edit_mode m) prev in
     mode next = m /\
     periodInputMode next = periodInputMode prev /\
     periodAmount next = periodAmount prev /\
     totalRepairCost next = totalRepairCost prev /\
     accumulationRate next = accumulationRate prev /\
     durationMonths next = durationMonths prev /\
     startYear next = startYear prev /\
     endYear next = endYear prev /\
     totalComplexArea next = totalComplexArea prev /\
     householdArea next = householdArea prev) /\
  (forall (p : PeriodInputMode) (prev : CalculationInputs),
     let next := handleInputChange (Edit_periodInputMode p) prev in
     mode next = mode prev /\
     periodInputMode next = p /\
     periodAmount next = periodAmount prev /\
     totalRepairCost next = totalRepairCost prev /\
     accumulationRate next = accumulationRate prev /\
     durationMonths next = durationMonths prev /\
     startYear next = startYear prev /\
     endYear next = endYear prev /\
     totalComplexArea next = totalComplexArea prev /\
     householdArea next = householdArea prev) /\
  (forall (m : CalculationMode) (prev : CalculationInputs),
     handleInputChange (Edit_mode (mode prev)) (handleInputChange (Edit_mode m) prev)
     = prev) /\
  (forall (p : PeriodInputMode) (prev : CalculationInputs),
     handleInputChange (Edit_periodInputMode (periodInputMode prev))
       (handleInputChange (Edit_periodInputMode p) prev)
     = prev) /\
  (forall prev : CalculationInputs,
     let back := handleInputChange (Edit_mode RATE)
                   (handleInputChange (Edit_mode AMOUNT) prev) in
     totalRepairCost back = totalRepairCost prev /\
     accumulationRate back = accumulationRate prev /\
     periodAmount back = periodAmount prev).
Proof.
  split; [|split; [|split; [|split]]].
  - intros m prev. simpl. repeat split.
  - intros p prev. simpl. repeat split.
  - intros m prev. destruct prev. reflexivity.
  - intros p prev. destruct prev. reflexivity.
  - intro prev. simpl. repeat split.
Qed.

(** ** Blank and fractional years *)

(** A range edit does not touch the preconditions on the other fields. *)
Lemma range_edit_others (currentYear : number) (type : RangeBoundary)
    (year : number) (prev : CalculationInputs) :
  othersSufficient prev ->
  othersSufficient (handlePeriodRangeChange currentYear type year prev).
Proof.
  destruct (range_edit_frame currentYear type year prev)
    as (Hm & _ & Hp & Hc & Hr & Ht & Hh).
  unfold othersSufficient, modeSufficient.
  rewrite Hm, Hp, Hc, Hr, Ht, Hh. auto.
Qed.

(** After a range edit the derivation has a result as soon as the other
    fields allow one. *)
Lemma range_edit_computable (currentYear : number) (type : RangeBoundary)
    (year : number) (prev : CalculationInputs) :
  othersSufficient prev ->
  exists r, calculate (handlePeriodRangeChange currentYear type year prev) = Some r.
Proof.
  intro H.
  eexists. apply calculate_sufficient. split.
  - pose proof (range_edit_at_least_a_year currentYear type year prev). lra.
  - now apply range_edit_others.
Qed.

(** C6, as stated, fails: on the range 2025 to 2030 with the other fields of
    the worked example, blanking the start year gives 24,372 months and
    blanking the end year gives 12 months, and the derivation has a result
    in both states. *)
Lemma blank_year_has_result :
  othersSufficient rangeExample /\
  (let next := handlePeriodRangeChange 2026 start 0 rangeExample in
   startYear next = Some 0 /\ endYear next = Some 2030 /\
   durationMonths next = 24372 /\ calculate next <> None) /\
  (let next := handlePeriodRangeChange 2026 end_ 0 rangeExample in
   startYear next = Some 0 /\ endYear next = Some 0 /\
   durationMonths next = 12 /\ calculate next <> None).
Proof.
  split; [repeat split; reflexivity|].
  split; (split; [reflexivity|]; split; [reflexivity|]; split; [reflexivity|]);
    vm_compute; discriminate.
Qed.

(** C6, amended.  For all inputs whose other fields satisfy the
    preconditions, editing either range boundary to 0 gives a state whose
    duration is at least 12 months and on which the derivation produces a
    result. *)
Theorem blank_year_still_computable :
  forall currentYear type prev,
    othersSufficient prev ->
    let next := handlePeriodRangeChange currentYear type 0 prev in
    12 <= durationMonths next /\ exists r, calculate next = Some r.
Proof.
  intros cy type prev H next. split.
  - apply range_edit_at_least_a_year.
  - now apply range_edit_computable.
Qed.

Lemma blank_year_still_computable_witness :
  let next := handlePeriodRangeChange 2026 start 0 rangeExample in
  12 <= durationMonths next /\ exists r, calculate next = Some r.
Proof.
  apply (blank_year_still_computable 2026 start rangeExample).
  repeat split; reflexivity.
Defined.

Lemma safeWhole_resolvedStart (currentYear : number) (prev : CalculationInputs) :
  safeWhole currentYear -> safeWholeIfPresent (startYear prev) ->
  safeWhole (resolvedStart currentYear prev).
Proof.
  unfold resolvedStart, or_else. intros Hc Hs.
  destruct (startYear prev) as [s|]; [|exact Hc].
  destruct (truthy s); [exact Hs | exact Hc].
Qed.

Lemma safeWhole_resolvedEnd (currentYear : number) (prev : CalculationInputs) :
  safeWhole currentYear -> safeWholeIfPresent (startYear prev) ->
  safeWholeIfPresent (endYear prev) ->
  safeWhole (resolvedEnd currentYear prev).
Proof.
  unfold resolvedEnd, or_else. intros Hc Hs He.
  pose proof (safeWhole_resolvedStart currentYear prev Hc Hs) as H0.
  destruct (endYear prev) as [e|]; [|exact H0].
  destruct (truthy e); [exact He | exact H0].
Qed.

(** The years a range edit stores are among the entered year and the two
    boundaries it started from. *)
Lemma range_edit_safeWhole (currentYear : number) (type : RangeBoundary)
    (year : number) (prev : CalculationInputs) :
  safeWhole year -> safeWhole currentYear ->
  safeWholeIfPresent (startYear prev) -> safeWholeIfPresent (endYear prev) ->
  let next := handlePeriodRangeChange currentYear type year prev in
  exists s e,
    startYear next = Some s /\ endYear next = Some e /\
    durationMonths next = (e - s + 1) * 12 /\ s <= e /\
    safeWhole s /\ safeWhole e.
Proof.
  intros Hy Hc Hs He next.
  destruct (range_edit_shape currentYear type year prev)
    as (s & e & Es & Ee & Hd & Hle & Hs' & He').
  exists s, e. repeat split; try assumption.
  - destruct Hs' as [-> | ->]; [exact Hy | now apply safeWhole_resolvedStart].
  - destruct He' as [-> | ->]; [exact Hy | now apply safeWhole_resolvedEnd].
Qed.

(** Between two such years in order lie at least one and at most
    2 * 10^15 + 1 years, a whole number. *)
Lemma safeWhole_span (s e : number) :
  safeWhole s -> safeWhole e -> s <= e ->
  exists k : Z, (1 <= k <= 2 * 10 ^ 15 + 1)%Z /\ e - s + 1 == inject_Z k.
Proof.
  intros (zs & Hs & Bs) (ze & He & Be) Hle.
  exists (ze - zs + 1)%Z. split.
  - rewrite Hs, He in Hle. rewrite <- Zle_Qle in Hle. lia.
  - rewrite Hs, He. unfold Z.sub.
    rewrite !inject_Z_plus, inject_Z_opp. change (inject_Z 1) with 1. ring.
Qed.

(** C10, as stated, fails: a start year of 2025.5, which the year field
    accepts, against the end year 2030 gives 66 months, which is not a
    multiple of 12. *)
Lemma fractional_year_breaks_whole_years :
  let next := handlePeriodRangeChange 2026 start 2025.5 rangeExample in
  startYear next = Some 2025.5 /\ endYear next = Some 2030 /\
  durationMonths next == 66 /\ ~ wholeYears (durationMonths next).
Proof.
  intro next.
  assert (Hd : durationMonths next == 66) by reflexivity.
  split; [reflexivity|]. split; [reflexivity|]. split; [exact Hd|].
  intros [k Hk]. rewrite Hd in Hk.
  unfold Qeq in Hk. cbn -[Z.mul] in Hk. lia.
Qed.

(** C10, amended.  After every range edit the duration is at least 12
    months, whatever finite years are entered.  It is an exact multiple of
    12, namely 12 k for a whole k between 1 and 2 * 10^15 + 1, when the
    years (the entered year, the stored years and the current year) are
    whole numbers of magnitude at most 10^15, 0 included.  Beyond that
    magnitude doubles no longer hold the product exactly. *)
Theorem range_edit_whole_years :
  (forall currentYear type year prev,
     12 <= durationMonths (handlePeriodRangeChange currentYear type year prev)) /\
  (forall currentYear type year prev,
     safeWhole year -> safeWhole currentYear ->
     safeWholeIfPresent (startYear prev) -> safeWholeIfPresent (endYear prev) ->
     exists k : Z,
       (1 <= k <= 2 * 10 ^ 15 + 1)%Z /\
       durationMonths (handlePeriodRangeChange currentYear type year prev)
       == 12 * inject_Z k).
Proof.
  split; [exact range_edit_at_least_a_year|].
  intros cy type year prev Hy Hc Hs He.
  destruct (range_edit_safeWhole cy type year prev Hy Hc Hs He)
    as (s & e & _ & _ & Hd & Hle & Ws & We).
  destruct (safeWhole_span s e Ws We Hle) as (k & Hk & Ek).
  exists k. split; [exact Hk|]. rewrite Hd, Ek. ring.
Qed.

Lemma range_edit_whole_years_witness :
  exists k : Z,
    (1 <= k <= 2 * 10 ^ 15 + 1)%Z /\
    durationMonths (handlePeriodRangeChange 2026 start 0 rangeExample)
    == 12 * inject_Z k.
Proof.
  apply (proj2 range_edit_whole_years 2026 start 0 rangeExample).
  - exists 0%Z. split; [reflexivity | vm_compute; discriminate].
  - exists 2026%Z. split; [reflexivity | vm_compute; discriminate].
  - exists 2025%Z. split; [reflexivity | vm_compute; discriminate].
  - exists 2030%Z. split; [reflexivity | vm_compute; discriminate].
Defined.

(** ** The external collaborators *)

(** The lookup reports a find exactly when it returns a positive area. *)
Lemma searchApartmentTotalArea_found (reply : Lookup.ApiReply) :
  let r := Lookup.searchApartmentTotalArea reply in
  Lookup.found r = gt (Lookup.totalArea r) 0 || gt (Lookup.householdArea r) 0.
Proof.
  destruct reply as [|text chunks]; [reflexivity|].
  destruct text as [[|fTotal fHousehold]|]; reflexivity.
Qed.

(** C7, as stated, fails: the lookup response is an input of the
    derivation.  While the areas of the worked example are blank there is no
    result; processing a reply that carries 150,000 and 84.9 square metres
    writes both into the inputs, and the result appears. *)
Lemma lookup_response_changes_inputs :
  let r := Lookup.searchApartmentTotalArea bothAreasReply in
  let st' := handleAptSearch_settled (Resolved r) lookupPending in
  Lookup.found r = true /\
  result lookupPending = None /\
  inputs st' <> inputs lookupPending /\
  totalComplexArea (inputs st') = 150000 /\
  householdArea (inputs st') = 84.9 /\
  result st' = calculate rateExample /\
  result st' <> result lookupPending.
Proof.
  repeat split; try discriminate.
Qed.

(** C7, amended.  The advice collaborator is a downstream consumer only:
    processing its response, success or failure, leaves the inputs and the
    result as they were, and so does sending either request.  The area
    lookup leaves them as they were when it is rejected, reports nothing
    found, or returns no positive area.  A found response writes each
    positive area it returns into [totalComplexArea] or [householdArea],
    changes no other input field, and the result is the derivation of the
    inputs so updated. *)
Theorem collaborator_responses_frame :
  (forall (outcome : Settled string) (st : AppState),
     let st' := handleConsultAI_settled outcome st in
     inputs st' = inputs st /\ result st' = result st) /\
  (forall (trim : string -> string) (st : AppState),
     inputs (fst (handleConsultAI_request st)) = inputs st /\
     result (fst (handleConsultAI_request st)) = result st /\
     inputs (fst (handleAptSearch_request trim st)) = inputs st /\
     result (fst (handleAptSearch_request trim st)) = result st) /\
  (forall st : AppState,
     let st' := handleAptSearch_settled Rejected st in
     inputs st' = inputs st /\ result st' = result st) /\
  (forall (r : Lookup.Response) (st : AppState),
     Lookup.found r = false \/
     (Lookup.totalArea r <= 0 /\ Lookup.householdArea r <= 0) ->
     let st' := handleAptSearch_settled (Resolved r) st in
     inputs st' = inputs st /\ result st' = result st) /\
  (forall (r : Lookup.Response) (st : AppState),
     Lookup.found r = true ->
     0 < Lookup.totalArea r \/ 0 < Lookup.householdArea r ->
     let st' := handleAptSearch_settled (Resolved r) st in
     totalComplexArea (inputs st') =
       (if gt (Lookup.totalArea r) 0 then Lookup.totalArea r
        else totalComplexArea (inputs st)) /\
     householdArea (inputs st') =
       (if gt (Lookup.householdArea r) 0 then Lookup.householdArea r
        else householdArea (inputs st)) /\
     mode (inputs st') = mode (inputs st) /\
     periodInputMode (inputs st') = periodInputMode (inputs st) /\
     periodAmount (inputs st') = periodAmount (inputs st) /\
     totalRepairCost (inputs st') = totalRepairCost (inputs st) /\
     accumulationRate (inputs st') = accumulationRate (inputs st) /\
     durationMonths (inputs st') = durationMonths (inputs st) /\
     startYear (inputs st') = startYear (inputs st) /\
     endYear (inputs st') = endYear (inputs st) /\
     result st' = calculate (inputs st')).
Proof.
  split; [|split; [|split; [|split]]].
  - intros [text|] st; split; reflexivity.
  - intros trim st. unfold handleConsultAI_request, handleAptSearch_request.
    destruct (result st) eqn:R; destruct (trim (aptName st)); simpl;
      rewrite ?R; repeat split.
  - intro st. split; reflexivity.
  - intros r st H. unfold handleAptSearch_settled.
    destruct (Lookup.found r) eqn:F.
    + destruct H as [H | [Ht Hh]]; [discriminate|].
      apply gt_false in Ht, Hh. rewrite Ht, Hh. split; reflexivity.
    + split; reflexivity.
  - intros r st F H. unfold handleAptSearch_settled. rewrite F.
    destruct (gt (Lookup.totalArea r) 0) eqn:Gt;
      destruct (gt (Lookup.householdArea r) 0) eqn:Gh; simpl;
      try (repeat split; reflexivity).
    tests_to_props. exfalso. destruct H; lra.
Qed.

Lemma collaborator_responses_frame_witness :
  let r := Lookup.searchApartmentTotalArea Lookup.ApiThrows in
  let st' := handleAptSearch_settled (Resolved r) lookupPending in
  inputs st' = inputs lookupPending /\ result st' = result lookupPending.
Proof.
  apply (proj1 (proj2 (proj2 (proj2 collaborator_responses_frame)))
           (Lookup.searchApartmentTotalArea Lookup.ApiThrows) lookupPending).
  left. reflexivity.
Defined.

(** ** The derivation on doubles

    The three properties of the derivation hold as well for the arithmetic of
    IEEE doubles, NaN and the infinities included. *)

Lemma binary64_positive_not_le (x : float) :
  PrimFloat.ltb 0 x = true -> PrimFloat.leb x 0 = false.
Proof.
  rewrite ltb_spec, leb_spec.
  change (Prim2SF 0) with (S754_zero false).
  destruct (Prim2SF x) as [s|s| |s m e]; try destruct s;
    cbv [SFltb SFleb SFcompare]; congruence.
Qed.

(** The worked example under the rounding of doubles: the period target is
    2,000,000,000 exactly, the three other figures are the doubles nearest
    to the quotients, and the AMOUNT example gives the same four doubles. *)
Lemma binary64_worked_example :
  Binary64.calculate Binary64.rateExample =
    Some {| Binary64.periodTargetAmount := 2000000000;
            Binary64.monthlyTotalTarget := 33333333.333333332;
            Binary64.monthlyRatePerSqm := 222.2222222222222;
            Binary64.householdMonthlyFee := 18866.666666666664 |} /\
  Binary64.calculate Binary64.amountExample =
    Binary64.calculate Binary64.rateExample.
Proof. split; vm_compute; reflexivity. Qed.

(** On doubles that pass the four preconditions the result is built by the
    same four formulas, each operation rounded once. *)
Lemma binary64_calculate_formulas (i : Binary64.CalculationInputs) :
  PrimFloat.ltb 0 (Binary64.durationMonths i) = true ->
  PrimFloat.ltb 0 (Binary64.totalComplexArea i) = true ->
  PrimFloat.ltb 0 (Binary64.householdArea i) = true ->
  match Binary64.mode i with
  | RATE => PrimFloat.ltb 0 (Binary64.totalRepairCost i) = true /\
            PrimFloat.ltb 0 (Binary64.accumulationRate i) = true
  | AMOUNT => PrimFloat.ltb 0 (Binary64.periodAmount i) = true
  end ->
  exists r,
    Binary64.calculate i = Some r /\
    Binary64.periodTargetAmount r =
      match Binary64.mode i with
      | RATE => (Binary64.totalRepairCost i * (Binary64.accumulationRate i / 100))%float
      | AMOUNT => Binary64.periodAmount i
      end /\
    Binary64.monthlyTotalTarget r =
      (Binary64.periodTargetAmount r / Binary64.durationMonths i)%float /\
    Binary64.monthlyRatePerSqm r =
      (Binary64.monthlyTotalTarget r / Binary64.totalComplexArea i)%float /\
    Binary64.householdMonthlyFee r =
      (Binary64.monthlyRatePerSqm r * Binary64.householdArea i)%float.
Proof.
  intros Hd Ht Hh Hm. unfold Binary64.calculate.
  apply binary64_positive_not_le in Hd, Ht, Hh. rewrite Hd, Ht, Hh. simpl.
  destruct (Binary64.mode i).
  - destruct Hm as [Hc Hr]. apply binary64_positive_not_le in Hc, Hr.
    rewrite Hc, Hr. simpl. eexists. repeat split.
  - apply binary64_positive_not_le in Hm. rewrite Hm. eexists. repeat split.
Qed.

(** A test that fails on doubles gives no result. *)
Lemma binary64_calculate_insufficient (i : Binary64.CalculationInputs) :
  PrimFloat.leb (Binary64.durationMonths i) 0 = true \/
  PrimFloat.leb (Binary64.totalComplexArea i) 0 = true \/
  PrimFloat.leb (Binary64.householdArea i) 0 = true \/
  match Binary64.mode i with
  | RATE => PrimFloat.leb (Binary64.totalRepairCost i) 0 = true \/
            PrimFloat.leb (Binary64.accumulationRate i) 0 = true
  | AMOUNT => PrimFloat.leb (Binary64.periodAmount i) 0 = true
  end ->
  Binary64.calculate i = None.
Proof.
  unfold Binary64.calculate. intros [H | [H | [H | H]]].
  - now rewrite H.
  - rewrite H. now rewrite orb_true_r.
  - rewrite H. now rewrite orb_true_r.
  - destruct (_ || _ || _); [reflexivity|].
    destruct (Binary64.mode i).
    + destruct H as [H | H]; rewrite H; [reflexivity | now rewrite orb_true_r].
    + now rewrite H.
Qed.

(** Mode equivalence on doubles: the two results are the same doubles. *)
Lemma binary64_mode_equivalence (a b : Binary64.CalculationInputs) :
  Binary64.mode a = RATE -> Binary64.mode b = AMOUNT ->
  Binary64.durationMonths a = Binary64.durationMonths b ->
  Binary64.totalComplexArea a = Binary64.totalComplexArea b ->
  Binary64.householdArea a = Binary64.householdArea b ->
  PrimFloat.ltb 0 (Binary64.totalRepairCost a) = true ->
  PrimFloat.ltb 0 (Binary64.accumulationRate a) = true ->
  PrimFloat.ltb 0 (Binary64.periodAmount b) = true ->
  Binary64.periodAmount b =
    (Binary64.totalRepairCost a * (Binary64.accumulationRate a / 100))%float ->
  Binary64.calculate a = Binary64.calculate b.
Proof.
  intros Ma Mb Hd Ht Hh Hc Hr Hp E. unfold Binary64.calculate.
  rewrite Ma, Mb, <- Hd, <- Ht, <- Hh.
  destruct (_ || _ || _); [reflexivity|].
  apply binary64_positive_not_le in Hc, Hr, Hp. rewrite Hc, Hr, Hp. simpl.
  rewrite E. reflexivity.
Qed.

(** * Further properties of the code *)

(** ** The derivation, beyond its formulas *)

Lemma calculate_some_sufficient (i : CalculationInputs) (r : CalculationResult) :
  calculate i = Some r -> sufficient i.
Proof.
  intro E. destruct (sufficient_or_insufficient i) as [H | H]; [exact H|].
  apply calculate_none in H. congruence.
Qed.

(** X1.  The result depends only on the mode, the duration, the two areas
    and the cost fields of the active mode: two input sets that agree on
    these have the same result, whatever their years, period-input modes and
    inactive cost fields are. *)
Theorem calculate_reads_active_fields :
  forall i j : CalculationInputs,
    mode i = mode j ->
    durationMonths i = durationMonths j ->
    totalComplexArea i = totalComplexArea j ->
    householdArea i = householdArea j ->
    (mode i = RATE ->
     totalRepairCost i = totalRepairCost j /\
     accumulationRate i = accumulationRate j) ->
    (mode i = AMOUNT -> periodAmount i = periodAmount j) ->
    calculate i = calculate j.
Proof.
  intros i j Hm Hd Ht Hh Hr Ha. unfold calculate.
  rewrite <- Hm, <- Hd, <- Ht, <- Hh.
  destruct (mode i).
  - destruct (Hr eq_refl) as [-> ->]. reflexivity.
  - rewrite (Ha eq_refl). reflexivity.
Qed.

Lemma calculate_reads_active_fields_witness :
  calculate amountExample
  = calculate (handlePeriodRangeChange 2026 start 2025
                 (assign (Edit_totalRepairCost 5) amountExample)).
Proof.
  apply calculate_reads_active_fields; try reflexivity; discriminate.
Defined.

(** ** Duration and range, back and forth *)

Lemma Math_round_whole (k : Z) : Math_round (inject_Z k) = inject_Z k.
Proof.
  unfold Math_round. f_equal.
  pose proof (Qfloor_le (inject_Z k + (1 # 2))) as Hl.
  pose proof (Qlt_floor (inject_Z k + (1 # 2))) as Hu.
  set (f := Qfloor (inject_Z k + (1 # 2))) in *.
  unfold Qle, Qlt, Qplus, inject_Z in Hl, Hu. simpl in Hl, Hu. lia.
Qed.

Lemma Math_round_compat (x y : number) : x == y -> Math_round x = Math_round y.
Proof. intro E. unfold Math_round. now rewrite E. Qed.

Lemma Math_max_right (a b : number) : a <= b -> Math_max a b = b.
Proof. intro H. unfold Math_max. apply Qle_bool_iff in H. now rewrite H. Qed.

Lemma Math_max_left (a b : number) : b < a -> Math_max a b = a.
Proof. intro H. unfold Math_max. apply (le_false a b) in H. unfold le in H. now rewrite H. Qed.

(** The state after a duration edit when the start year is set. *)
Lemma duration_edit_set (months s : number) (prev : CalculationInputs) :
  startYear prev = Some s -> is_set (startYear prev) = true ->
  handleInputChange (Edit_durationMonths months) prev =
    assign (Edit_endYear (Some (s + Math_max 1 (Math_round (months / 12)) - 1)))
      (assign (Edit_durationMonths months) prev).
Proof.
  intros E H. rewrite E in H. simpl in H.
  unfold handleInputChange. simpl. rewrite E, H. reflexivity.
Qed.

(** The state after an end-year edit that does not go below a set start
    year. *)
Lemma end_edit_keeps_start (currentYear year s : number) (prev : CalculationInputs) :
  startYear prev = Some s -> is_set (startYear prev) = true -> s <= year ->
  let next := handlePeriodRangeChange currentYear end_ year prev in
  startYear next = Some s /\ endYear next = Some year /\
  durationMonths next = (year - s + 1) * 12.
Proof.
  intros E H Hle next. subst next. rewrite E in H. simpl in H.
  unfold handlePeriodRangeChange. rewrite E. simpl. rewrite H.
  apply lt_false in Hle. rewrite Hle. repeat split.
Qed.

(** The state after a start-year edit that does not go past a set end
    year. *)
Lemma start_edit_keeps_end (currentYear year e : number) (prev : CalculationInputs) :
  endYear prev = Some e -> is_set (endYear prev) = true -> year <= e ->
  let next := handlePeriodRangeChange currentYear start year prev in
  startYear next = Some year /\ endYear next = Some e /\
  durationMonths next = (e - year + 1) * 12.
Proof.
  intros E H Hle next. subst next. rewrite E in H. simpl in H.
  unfold handlePeriodRangeChange. rewrite E. simpl. rewrite H.
  apply gt_false in Hle. rewrite Hle. repeat split.
Qed.

(** The end year a duration edit computes from a whole start year and a
    whole number of months, both of magnitude at most 10^15, is a whole
    number of magnitude at most 2 * 10^15. *)
Lemma synced_end_year_whole (s months : number) :
  safeWhole s -> safeWhole months ->
  exists z : Z,
    s + Math_max 1 (Math_round (months / 12)) - 1 == inject_Z z /\
    (Z.abs z <= 2 * 10 ^ 15)%Z.
Proof.
  intros (zs & Hs & Bs) (zm & Hm & Bm).
  set (f := Qfloor (months / 12 + (1 # 2))).
  assert (Hf : (12 * f <= zm + 6 /\ zm + 6 < 12 * f + 12)%Z).
  { pose proof (Qfloor_le (months / 12 + (1 # 2))) as Hl.
    pose proof (Qlt_floor (months / 12 + (1 # 2))) as Hu.
    fold f in Hl, Hu. rewrite inject_Z_plus in Hu. change (inject_Z 1) with 1 in Hu.
    assert (Hx : months / 12 * 12 == months) by field.
    split.
    - rewrite Zle_Qle, inject_Z_mult, inject_Z_plus, <- Hm.
      change (inject_Z 12) with 12. change (inject_Z 6) with 6. lra.
    - rewrite Zlt_Qlt, !inject_Z_plus, inject_Z_mult, <- Hm.
      change (inject_Z 12) with 12. change (inject_Z 6) with 6. lra. }
  assert (Bf : (Z.abs f <= 10 ^ 15)%Z) by lia.
  unfold Math_round. fold f. unfold Math_max.
  destruct (Qle_bool 1 (inject_Z f)) eqn:E.
  - exists (zs + f - 1)%Z. split; [|lia].
    rewrite Hs. unfold Z.sub. rewrite !inject_Z_plus, inject_Z_opp.
    change (inject_Z 1) with 1. ring.
  - exists zs. split; [rewrite Hs; ring | lia].
Qed.

(** X5.  A duration of whole years survives the trip through the year
    range: entered with a set start year, a duration of 12 k months (k a
    whole number, at least 1; months and start year of magnitude at most
    10^15) gives a whole end year of magnitude at most 2 * 10^15, from
    which the range edit derives the same 12 k months. *)
Theorem whole_year_duration_round_trip :
  forall (currentYear months s : number) (k : Z) (prev : CalculationInputs),
    startYear prev = Some s -> is_set (startYear prev) = true ->
    safeWhole s -> safeWhole months ->
    months == 12 * inject_Z k -> (1 <= k)%Z ->
    let next := handleInputChange (Edit_durationMonths months) prev in
    exists e,
      endYear next = Some e /\
      (exists z : Z, e == inject_Z z /\ (Z.abs z <= 2 * 10 ^ 15)%Z) /\
      durationMonths (handlePeriodRangeChange currentYear end_ e next) == months.
Proof.
  intros cy months s k prev E H Ws Wm Hk Hk1 next. subst next.
  pose proof (synced_end_year_whole s months Ws Wm) as We.
  rewrite (duration_edit_set months s prev E H).
  assert (Hr : Math_round (months / 12) = inject_Z k).
  { rewrite <- Math_round_whole. apply Math_round_compat. rewrite Hk. field. }
  assert (H1 : 1 <= inject_Z k).
  { change 1 with (inject_Z 1). rewrite <- Zle_Qle. exact Hk1. }
  rewrite Hr, (Math_max_right 1 (inject_Z k) H1) in *.
  eexists. split; [reflexivity|]. split; [exact We|].
  set (mid := assign _ _).
  assert (Es : startYear mid = Some s) by exact E.
  assert (Hs : is_set (startYear mid) = true) by exact H.
  destruct (end_edit_keeps_start cy (s + inject_Z k - 1) s mid Es Hs) as (_ & _ & Hd);
    [lra|].
  rewrite Hd, Hk. ring.
Qed.

Lemma whole_year_duration_round_trip_witness :
  exists e,
    endYear (handleInputChange (Edit_durationMonths 36) rateExample) = Some e /\
    (exists z : Z, e == inject_Z z /\ (Z.abs z <= 2 * 10 ^ 15)%Z) /\
    durationMonths
      (handlePeriodRangeChange 2026 end_ e
         (handleInputChange (Edit_durationMonths 36) rateExample)) == 36.
Proof.
  apply (whole_year_duration_round_trip 2026 36 2025 3 rateExample);
    try reflexivity.
  - exists 2025%Z. split; [reflexivity | vm_compute; discriminate].
  - exists 36%Z. split; [reflexivity | vm_compute; discriminate].
  - discriminate.
Defined.

(** X6.  The sync of the end year is off by at most half a year.  With a
    set start year, a whole number of at least 6 months gives a range whose
    length in months lies within 6 of it (above by less than 6, below by at
    most 6), and a whole number of months under 6 gives the range of one
    year.  Months and start year are whole numbers of magnitude at most
    10^15, and the end year is then a whole number of magnitude at most
    2 * 10^15. *)
Theorem duration_sync_within_half_a_year :
  forall (months s : number) (prev : CalculationInputs),
    startYear prev = Some s -> is_set (startYear prev) = true ->
    safeWhole s -> safeWhole months ->
    let next := handleInputChange (Edit_durationMonths months) prev in
    exists e,
      endYear next = Some e /\
      (exists z : Z, e == inject_Z z /\ (Z.abs z <= 2 * 10 ^ 15)%Z) /\
      (6 <= months ->
       months - 6 < (e - s + 1) * 12 /\ (e - s + 1) * 12 <= months + 6) /\
      (months < 6 -> (e - s + 1) * 12 == 12).
Proof.
  intros months s prev E H Ws Wm next. subst next.
  rewrite (duration_edit_set months s prev E H).
  eexists. split; [reflexivity|].
  split; [exact (synced_end_year_whole s months Ws Wm)|].
  destruct (Math_round_nearest (months / 12)) as (_ & Hlo & Hhi).
  assert (Hx : months / 12 * 12 == months) by field.
  split.
  - intro Hge.
    assert (H1 : 1 <= Math_round (months / 12)).
    { unfold Math_round.
      change 1 with (inject_Z (Qfloor 1)).
      rewrite <- Zle_Qle. apply Qfloor_resp_le. lra. }
    rewrite (Math_max_right 1 _ H1). lra.
  - intro Hlt.
    assert (H1 : Math_round (months / 12) < 1).
    { unfold Math_round.
      pose proof (Qfloor_le (months / 12 + (1 # 2))) as Hf. lra. }
    rewrite (Math_max_left 1 _ H1). ring.
Qed.

Lemma duration_sync_within_half_a_year_witness :
  exists e,
    endYear (handleInputChange (Edit_durationMonths 65) rateExample) = Some e /\
    65 - 6 < (e - 2025 + 1) * 12 /\ (e - 2025 + 1) * 12 <= 65 + 6.
Proof.
  assert (S : safeWhole 2025)
    by (exists 2025%Z; split; [reflexivity | vm_compute; discriminate]).
  assert (M : safeWhole 65)
    by (exists 65%Z; split; [reflexivity | vm_compute; discriminate]).
  destruct (duration_sync_within_half_a_year 65 2025 rateExample eq_refl eq_refl S M)
    as (e & He & _ & Hb & _).
  exists e. split; [exact He|]. apply Hb. discriminate.
Defined.

(** X7.  The other way round: after a range edit on whole years of
    magnitude at most 10^15 that leaves a set start year, entering the
    duration the edit derived gives the same end year again, and so the
    same range. *)
Theorem range_duration_round_trip :
  forall (currentYear year : number) (type : RangeBoundary) (prev : CalculationInputs),
    safeWhole year -> safeWhole currentYear ->
    safeWholeIfPresent (startYear prev) -> safeWholeIfPresent (endYear prev) ->
    let ranged := handlePeriodRangeChange currentYear type year prev in
    is_set (startYear ranged) = true ->
    let next := handleInputChange (Edit_durationMonths (durationMonths ranged)) ranged in
    startYear next = startYear ranged /\
    durationMonths next = durationMonths ranged /\
    exists e e', endYear ranged = Some e /\ endYear next = Some e' /\ e' == e.
Proof.
  intros cy year type prev Hy Hc Hs He ranged Hset next. subst next.
  destruct (range_edit_safeWhole cy type year prev Hy Hc Hs He)
    as (s & e & Es & Ee & Hd & Hle & Ws & We).
  fold ranged in Es, Ee, Hd.
  rewrite (duration_edit_set _ s ranged Es Hset). simpl.
  split; [reflexivity|]. split; [reflexivity|].
  exists e. eexists. split; [exact Ee|]. split; [reflexivity|].
  destruct (safeWhole_span s e Ws We Hle) as (k & [Hk1 _] & Ek).
  assert (Hr : Math_round (durationMonths ranged / 12) = inject_Z k).
  { rewrite <- Math_round_whole. apply Math_round_compat.
    rewrite Hd, Ek. field. }
  assert (H1 : 1 <= inject_Z k).
  { change 1 with (inject_Z 1). rewrite <- Zle_Qle. exact Hk1. }
  rewrite Hr, (Math_max_right 1 _ H1). rewrite <- Ek. ring.
Qed.

Lemma range_duration_round_trip_witness :
  let ranged := handlePeriodRangeChange 2026 end_ 2040 rangeExample in
  let next := handleInputChange (Edit_durationMonths (durationMonths ranged)) ranged in
  startYear next = startYear ranged /\
  durationMonths next = durationMonths ranged /\
  exists e e', endYear ranged = Some e /\ endYear next = Some e' /\ e' == e.
Proof.
  apply (range_duration_round_trip 2026 2040 end_ rangeExample).
  - exists 2040%Z. split; [reflexivity | vm_compute; discriminate].
  - exists 2026%Z. split; [reflexivity | vm_compute; discriminate].
  - exists 2025%Z. split; [reflexivity | vm_compute; discriminate].
  - exists 2030%Z. split; [reflexivity | vm_compute; discriminate].
  - reflexivity.
Defined.

(** X8.  A range can be entered in either order: with [a] not after [b],
    editing the start to [a] and then the end to [b] gives the range from
    [a] to [b] when [a] is not the blank year 0, and editing the end to [b]
    and then the start to [a] gives it when [b] is not 0; the duration is
    [(b - a + 1) * 12] both ways, whatever the state was before. *)
Theorem range_entered_in_either_order :
  forall (currentYear a b : number) (prev : CalculationInputs),
    a <= b ->
    (truthy a = true ->
     let next := handlePeriodRangeChange currentYear end_ b
                   (handlePeriodRangeChange currentYear start a prev) in
     startYear next = Some a /\ endYear next = Some b /\
     durationMonths next = (b - a + 1) * 12) /\
    (truthy b = true ->
     let next := handlePeriodRangeChange currentYear start a
                   (handlePeriodRangeChange currentYear end_ b prev) in
     startYear next = Some a /\ endYear next = Some b /\
     durationMonths next = (b - a + 1) * 12).
Proof.
  intros cy a b prev Hab. split; intros T next; subst next.
  - apply end_edit_keeps_start; [| |exact Hab].
    + unfold handlePeriodRangeChange. destruct (gt _ _); reflexivity.
    + unfold handlePeriodRangeChange. destruct (gt _ _); exact T.
  - apply start_edit_keeps_end; [| |exact Hab].
    + unfold handlePeriodRangeChange. destruct (lt _ _); reflexivity.
    + unfold handlePeriodRangeChange. destruct (lt _ _); exact T.
Qed.

Lemma range_entered_in_either_order_witness :
  let next := handlePeriodRangeChange 2026 start 2031
                (handlePeriodRangeChange 2026 end_ 2035 rangeExample) in
  startYear next = Some 2031 /\ endYear next = Some 2035 /\
  durationMonths next = (2035 - 2031 + 1) * 12.
Proof.
  apply (proj2 (range_entered_in_either_order 2026 2031 2035 rangeExample
                  ltac:(discriminate))).
  reflexivity.
Defined.

Lemma or_else_truthy (x : option number) (d : number) :
  truthy d = true -> truthy (or_else x d) = true.
Proof.
  intro H. unfold or_else. destruct x as [v|]; [|exact H].
  destruct (truthy v) eqn:T; [exact T | exact H].
Qed.

Lemma inputs_ext (i j : CalculationInputs) :
  mode i = mode j -> periodInputMode i = periodInputMode j ->
  periodAmount i = periodAmount j -> totalRepairCost i = totalRepairCost j ->
  accumulationRate i = accumulationRate j -> durationMonths i = durationMonths j ->
  startYear i = startYear j -> endYear i = endYear j ->
  totalComplexArea i = totalComplexArea j -> householdArea i = householdArea j ->
  i = j.
Proof. destruct i, j. simpl. intros. subst. reflexivity. Qed.

(** X9.  Entering the same year twice is entering it once: a range edit
    with a year other than 0 (the current year is never 0), repeated on its
    own result, changes nothing. *)
Theorem range_edit_idempotent :
  forall (currentYear year : number) (type : RangeBoundary) (prev : CalculationInputs),
    truthy currentYear = true -> truthy year = true ->
    handlePeriodRangeChange currentYear type year
      (handlePeriodRangeChange currentYear type year prev)
    = handlePeriodRangeChange currentYear type year prev.
Proof.
  intros cy year type prev Tc Ty.
  pose proof (or_else_truthy (startYear prev) cy Tc) as Ts0.
  pose proof (or_else_truthy (endYear prev) _ Ts0) as Te0.
  destruct (range_edit_shape cy type year prev)
    as (s & e & Es & Ee & Hd & Hle & Hs' & He').
  set (once := handlePeriodRangeChange cy type year prev) in *.
  assert (Tsn : truthy s = true) by (destruct Hs' as [-> | ->]; assumption).
  assert (Ten : truthy e = true) by (destruct He' as [-> | ->]; assumption).
  destruct (range_edit_frame cy type year once) as (F1 & F2 & F3 & F4 & F5 & F6 & F7).
  destruct type.
  - assert (s = year).
    { assert (E' : startYear once = Some year)
        by (unfold once, handlePeriodRangeChange; destruct (gt _ _); reflexivity).
      congruence. }
    subst s.
    destruct (start_edit_keeps_end cy year e once Ee) as (H1 & H2 & H3);
      [rewrite Ee; exact Ten | exact Hle |].
    apply inputs_ext; congruence.
  - assert (e = year).
    { assert (E' : endYear once = Some year)
        by (unfold once, handlePeriodRangeChange; destruct (lt _ _); reflexivity).
      congruence. }
    subst e.
    destruct (end_edit_keeps_start cy year s once Es) as (H1 & H2 & H3);
      [rewrite Es; exact Tsn | exact Hle |].
    apply inputs_ext; congruence.
Qed.

Lemma range_edit_idempotent_witness :
  handlePeriodRangeChange 2026 end_ 2020
    (handlePeriodRangeChange 2026 end_ 2020 rangeExample)
  = handlePeriodRangeChange 2026 end_ 2020 rangeExample.
Proof.
  apply (range_edit_idempotent 2026 2020 end_ rangeExample); reflexivity.
Defined.

(** X10.  After a range edit, whatever year was entered, the derivation has
    a result exactly when the two areas and the cost fields of the active
    mode are positive: the period never stands in the way. *)
Theorem range_edit_result_present :
  forall (currentYear year : number) (type : RangeBoundary) (prev : CalculationInputs),
    (exists r, calculate (handlePeriodRangeChange currentYear type year prev) = Some r)
    <-> othersSufficient prev.
Proof.
  intros cy year type prev. split.
  - intros [r E]. apply calculate_some_sufficient in E. destruct E as [_ H].
    destruct (range_edit_frame cy type year prev)
      as (Hm & _ & Hp & Hc & Hr & Ht & Hh).
    unfold othersSufficient, modeSufficient in *.
    rewrite Hm, Hp, Hc, Hr, Ht, Hh in H. exact H.
  - apply range_edit_computable.
Qed.

Lemma range_edit_result_present_witness :
  exists r, calculate (handlePeriodRangeChange 2026 end_ 1 rangeExample) = Some r.
Proof.
  apply (proj2 (range_edit_result_present 2026 1 end_ rangeExample)).
  repeat split; reflexivity.
Defined.

(** ** The page as a whole *)

(** The lookup handler writes areas only: it leaves the period fields, the
    mode and the cost fields as they are, and keeps the result in step with
    the inputs. *)
Lemma handleAptSearch_settled_frame (outcome : Settled Lookup.Response) (st : AppState) :
  let st' := handleAptSearch_settled outcome st in
  startYear (inputs st') = startYear (inputs st) /\
  endYear (inputs st') = endYear (inputs st) /\
  durationMonths (inputs st') = durationMonths (inputs st) /\
  (result st = calculate (inputs st) -> result st' = calculate (inputs st')).
Proof.
  destruct outcome as [r|]; [|simpl; auto].
  unfold handleAptSearch_settled.
  destruct (Lookup.found r);
    [destruct (gt (Lookup.totalArea r) 0); destruct (gt (Lookup.householdArea r) 0)|];
    simpl; auto.
Qed.

(** X11.  In every state of a session in which the current year and the
    years entered are whole numbers of magnitude at most 10^15, both years
    are present, the start year is such a whole number and it is not after
    the end year: the order survives range edits, duration edits (which move
    the end year to the start year plus a whole number of years, at least
    one, minus one), every other input and both collaborators. *)
Theorem years_ordered_in_every_state :
  forall (trim : string -> string) (st : AppState),
    reachableWholeYears trim st ->
    exists s e,
      startYear (inputs st) = Some s /\ endYear (inputs st) = Some e /\
      s <= e /\ safeWhole s.
Proof.
  intros trim st R.
  induction R as [cy Hc | cy ev st Hc Hev R (s & e & Es & Ee & Hle & Ws)].
  - exists cy, (cy + 4). repeat split; [simpl; lra | exact Hc].
  - destruct ev; simpl;
      try (exists s, e; repeat split; assumption).
    + (* duration *)
      unfold handleInputChange. simpl. rewrite Es.
      destruct (truthy s) eqn:T; simpl.
      * exists s. eexists. split; [reflexivity|]. split; [reflexivity|].
        split; [|exact Ws].
        destruct (Math_max_upper 1 (Math_round (val / 12))) as (H1 & _). lra.
      * exists s, e. repeat split; assumption.
    + (* range *)
      simpl in Hev.
      destruct (range_edit_shape cy type val (inputs st))
        as (s' & e' & Es' & Ee' & _ & Hle' & Hs' & _).
      exists s', e'. repeat split; try assumption.
      destruct Hs' as [-> | ->]; [exact Hev|].
      apply safeWhole_resolvedStart; [exact Hc | rewrite Es; exact Ws].
    + (* search requested *)
      unfold handleAptSearch_request.
      destruct (trim (aptName st)); simpl; exists s, e; repeat split; assumption.
    + (* search settled *)
      destruct (handleAptSearch_settled_frame outcome st) as (Hs & He & _).
      exists s, e. rewrite Hs, He. repeat split; assumption.
    + (* consult requested *)
      unfold handleConsultAI_request.
      destruct (result st); simpl; exists s, e; repeat split; assumption.
    + (* consult settled *)
      destruct outcome; simpl; exists s, e; repeat split; assumption.
Qed.

Lemma years_ordered_in_every_state_witness :
  let st := dispatch (fun s => s) 2026 (ChangeDurationMonths 7)
              (dispatch (fun s => s) 2026 (ChangePeriodRange end_ 2000)
                 (initialState 2026)) in
  exists s e,
    startYear (inputs st) = Some s /\ endYear (inputs st) = Some e /\
    s <= e /\ safeWhole s.
Proof.
  assert (C : safeWhole 2026)
    by (exists 2026%Z; split; [reflexivity | vm_compute; discriminate]).
  assert (Y : safeWhole 2000)
    by (exists 2000%Z; split; [reflexivity | vm_compute; discriminate]).
  apply (years_ordered_in_every_state (fun s => s)).
  apply wholeYears_dispatch; [exact C | exact I |].
  apply wholeYears_dispatch; [exact C | exact Y |].
  apply wholeYears_initial. exact C.
Defined.

(** ** The area lookup and its handler *)




(** X14.  The message under the search box tells what was written: "both
    entered" only when both inputs hold the returned areas, "only the total"
    and "only the household area" only when that one input holds the
    returned area and the other is untouched, and "not found" only when the
    inputs are untouched. *)
Theorem search_message_matches_inputs :
  forall (r : Lookup.Response) (st : AppState),
    let st' := handleAptSearch_settled (Resolved r) st in
    match searchMessage st' with
    | BothAreasEntered shown =>
        shown = Lookup.householdArea r /\
        totalComplexArea (inputs st') = Lookup.totalArea r /\
        householdArea (inputs st') = Lookup.householdArea r
    | OnlyTotalAreaFound =>
        totalComplexArea (inputs st') = Lookup.totalArea r /\
        householdArea (inputs st') = householdArea (inputs st)
    | OnlyHouseholdAreaFound =>
        householdArea (inputs st') = Lookup.householdArea r /\
        totalComplexArea (inputs st') = totalComplexArea (inputs st)
    | AreasNotFound => inputs st' = inputs st
    | NoMessage | EnterComplexName | SearchFailed => False
    end.
Proof.
  intros r st. unfold handleAptSearch_settled.
  destruct (Lookup.found r);
    [destruct (gt (Lookup.totalArea r) 0) eqn:Gt;
     destruct (gt (Lookup.householdArea r) 0) eqn:Gh|];
    simpl; rewrite ?Gt; simpl; auto.
Qed.

(** X15.  A lookup never spoils the inputs: whatever it returns, each area
    afterwards is the one before or a positive one, and inputs that were
    sufficient stay sufficient, so a result on display does not
    disappear. *)
Theorem lookup_keeps_sufficient :
  forall (outcome : Settled Lookup.Response) (st : AppState),
    let st' := handleAptSearch_settled outcome st in
    (totalComplexArea (inputs st') = totalComplexArea (inputs st) \/
     0 < totalComplexArea (inputs st')) /\
    (householdArea (inputs st') = householdArea (inputs st) \/
     0 < householdArea (inputs st')) /\
    (sufficient (inputs st) -> sufficient (inputs st')).
Proof.
  intros [r|] st; [|simpl; auto].
  unfold handleAptSearch_settled.
  destruct (Lookup.found r);
    [destruct (gt (Lookup.totalArea r) 0) eqn:Gt;
     destruct (gt (Lookup.householdArea r) 0) eqn:Gh|];
    simpl; tests_to_props;
    (split; [auto | split; [auto |]]);
    intros (Hd & Ht & Hh & Hm);
    (split; [exact Hd | split; [simpl; assumption | split; [simpl; assumption | exact Hm]]]).
Qed.

Lemma lookup_keeps_sufficient_witness :
  let st := setInputs (fun _ => rateExample) (initialState 2026) in
  sufficient
    (inputs (handleAptSearch_settled
               (Resolved (Lookup.searchApartmentTotalArea
                            (Lookup.ApiResponse
                               (Some (Lookup.JsonObject (Lookup.JNumber (-5))
                                        (Lookup.JNumber 59)))
                               None)))
               st)).
Proof.
  intro st.
  apply (proj2 (proj2 (lookup_keeps_sufficient
                         (Resolved (Lookup.searchApartmentTotalArea
                            (Lookup.ApiResponse
                               (Some (Lookup.JsonObject (Lookup.JNumber (-5))
                                        (Lookup.JNumber 59)))
                               None)))
                         st))).
  repeat split; reflexivity.
Defined.

(** ** The number field *)

Local Arguments Ascii.eqb : simpl never.
Local Arguments InputGroup.isDigit : simpl never.

Lemma isDigit_allowed (c : ascii) :
  InputGroup.isDigit c = true ->
  InputGroup.allowed c = true /\ Ascii.eqb "," c = false /\ Ascii.eqb "." c = false.
Proof.
  destruct c as [[] [] [] [] [] [] [] []]; vm_compute; intro H;
    try discriminate H; repeat split.
Qed.

Lemma remove_every (class : ascii -> bool) (s : string) :
  everyChar (fun c => negb (class c)) (InputGroup.remove class s) = true.
Proof.
  induction s as [|c s IH]; simpl; [reflexivity|].
  destruct (class c) eqn:E; simpl; [exact IH|]. now rewrite E.
Qed.

Lemma remove_nothing (class : ascii -> bool) (s : string) :
  everyChar (fun c => negb (class c)) s = true -> InputGroup.remove class s = s.
Proof.
  induction s as [|c s IH]; simpl; [reflexivity|].
  intro H. apply andb_true_iff in H. destruct H as [Hc Hs].
  apply negb_true_iff in Hc. rewrite Hc. f_equal. now apply IH.
Qed.

Lemma remove_keeps_dots (s : string) :
  InputGroup.occurrences "." (InputGroup.remove (fun c => negb (InputGroup.allowed c)) s)
  = InputGroup.occurrences "." s.
Proof.
  induction s as [|c s IH]; simpl; [reflexivity|].
  destruct (InputGroup.allowed c) eqn:A; simpl.
  - now rewrite IH.
  - rewrite IH. unfold InputGroup.allowed in A.
    destruct (Ascii.eqb "." c) eqn:E; [|reflexivity].
    apply Ascii.eqb_eq in E. subst c. discriminate A.
Qed.

Lemma parseFloat_not_negative (s : string) (v : number) :
  InputGroup.parseFloat s = Some v -> 0 <= v.
Proof.
  unfold InputGroup.parseFloat.
  destruct (InputGroup.leadingDigits s) as [whole rest].
  destruct (whole ++ _); [discriminate|].
  intros [= <-]. unfold Qle. simpl. lia.
Qed.

Lemma numberOf_not_negative (s : string) : 0 <= InputGroup.numberOf s.
Proof.
  unfold InputGroup.numberOf.
  destruct (InputGroup.parseFloat _) as [v|] eqn:E; [|discriminate].
  now apply parseFloat_not_negative in E.
Qed.

(** X16.  The field never sends a negative number, and it ignores a text
    with two or more dots: such a text changes nothing and sends nothing,
    and every other text is kept in its cleaned form and sends a number that
    is at least 0, which the widget remembers as sent. *)
Theorem handleChange_sends_non_negative :
  forall (inputValue : string) (w : InputGroup.State),
    ((2 <= InputGroup.occurrences "." inputValue)%nat ->
     InputGroup.handleChange inputValue w = (w, None)) /\
    ((InputGroup.occurrences "." inputValue <= 1)%nat ->
     exists v,
       InputGroup.handleChange inputValue w =
         ({| InputGroup.localValue :=
               InputGroup.remove (fun c => negb (InputGroup.allowed c)) inputValue;
             InputGroup.lastEmittedValue := v |}, Some v) /\
       0 <= v).
Proof.
  intros inputValue w. unfold InputGroup.handleChange.
  rewrite remove_keeps_dots. split; intro H.
  - assert (E : (2 <? S (InputGroup.occurrences "." inputValue))%nat = true)
      by (apply Nat.ltb_lt; lia).
    now rewrite E.
  - assert (E : (2 <? S (InputGroup.occurrences "." inputValue))%nat = false)
      by (apply Nat.ltb_ge; lia).
    rewrite E. eexists. split; [reflexivity|]. apply numberOf_not_negative.
Qed.

Lemma handleChange_sends_non_negative_witness :
  exists v,
    InputGroup.handleChange "-12.5" emptyField =
      ({| InputGroup.localValue := "12.5"; InputGroup.lastEmittedValue := v |}, Some v) /\
    0 <= v.
Proof.
  apply (proj2 (handleChange_sends_non_negative "-12.5" emptyField)).
  vm_compute. lia.
Defined.

(** X17.  The number the field sends depends on the digits and dots of the
    text alone: signs, letters, spaces and thousands separators, wherever
    they stand, make no difference. *)
Theorem handleChange_reads_digits_and_dots :
  forall (inputValue : string) (w : InputGroup.State),
    snd (InputGroup.handleChange inputValue w)
    = snd (InputGroup.handleChange
             (InputGroup.remove (fun c => negb (digitOrDot c)) inputValue) w).
Proof.
  intros inputValue w.
  assert (C : forall s,
             InputGroup.remove (Ascii.eqb ",")
               (InputGroup.remove (fun c => negb (InputGroup.allowed c)) s)
             = InputGroup.remove (fun c => negb (digitOrDot c)) s).
  { induction s as [|c s IH]; simpl; [reflexivity|].
    unfold InputGroup.allowed, digitOrDot in *.
    destruct (InputGroup.isDigit c) eqn:D; simpl.
    - destruct (isDigit_allowed c D) as (_ & Hc & _). rewrite Hc. now rewrite IH.
    - destruct (Ascii.eqb c ".") eqn:P; simpl.
      + apply Ascii.eqb_eq in P. subst c. simpl. now rewrite IH.
      + destruct (Ascii.eqb c ",") eqn:K; simpl.
        * apply Ascii.eqb_eq in K. subst c. simpl. exact IH.
        * exact IH. }
  assert (D : forall s,
             InputGroup.occurrences "." (InputGroup.remove (fun c => negb (digitOrDot c)) s)
             = InputGroup.occurrences "." s).
  { induction s as [|c s IH]; simpl; [reflexivity|].
    destruct (digitOrDot c) eqn:A; simpl.
    - now rewrite IH.
    - rewrite IH. unfold digitOrDot in A.
      destruct (Ascii.eqb "." c) eqn:E; [|reflexivity].
      apply Ascii.eqb_eq in E. subst c.
      destruct (InputGroup.isDigit "."); discriminate A. }
  unfold InputGroup.handleChange, InputGroup.numberOf.
  rewrite !remove_keeps_dots, D, !C.
  assert (I : InputGroup.remove (fun c => negb (digitOrDot c))
                (InputGroup.remove (fun c => negb (digitOrDot c)) inputValue)
              = InputGroup.remove (fun c => negb (digitOrDot c)) inputValue)
    by (apply remove_nothing; apply (remove_every (fun c => negb (digitOrDot c)))).
  rewrite I.
  destruct (2 <? _)%nat; reflexivity.
Qed.

(** *** Texts of digits *)

Lemma digits_every_allowed (t : string) :
  everyChar InputGroup.isDigit t = true ->
  everyChar (fun c => negb (negb (InputGroup.allowed c))) t = true /\
  everyChar (fun c => negb (Ascii.eqb "," c)) t = true /\
  InputGroup.occurrences "." t = 0%nat.
Proof.
  induction t as [|c t IH]; simpl; [auto|].
  intro H. apply andb_true_iff in H. destruct H as [Hc Ht].
  destruct (isDigit_allowed c Hc) as (Ha & Hk & Hp).
  destruct (IH Ht) as (I1 & I2 & I3).
  rewrite Ha, Hk, Hp, I1, I2, I3. auto.
Qed.

Lemma digits_append (t : string) (key : ascii) :
  everyChar InputGroup.isDigit t = true -> InputGroup.isDigit key = true ->
  everyChar InputGroup.isDigit (t ++ String key EmptyString) = true.
Proof.
  induction t as [|c t IH]; simpl; intros H K.
  - now rewrite K.
  - apply andb_true_iff in H. destruct H as [Hc Ht]. rewrite Hc. simpl. now apply IH.
Qed.

Lemma leadingDigits_digits (t : string) :
  everyChar InputGroup.isDigit t = true ->
  snd (InputGroup.leadingDigits t) = EmptyString.
Proof.
  induction t as [|c t IH]; simpl; [reflexivity|].
  intro H. apply andb_true_iff in H. destruct H as [Hc Ht]. rewrite Hc.
  specialize (IH Ht). destruct (InputGroup.leadingDigits t). exact IH.
Qed.

Lemma leadingDigits_append (t : string) (key : ascii) :
  everyChar InputGroup.isDigit t = true -> InputGroup.isDigit key = true ->
  fst (InputGroup.leadingDigits (t ++ String key EmptyString))
  = fst (InputGroup.leadingDigits t) ++ [InputGroup.digitValue key].
Proof.
  induction t as [|c t IH]; simpl; intros H K.
  - now rewrite K.
  - apply andb_true_iff in H. destruct H as [Hc Ht]. rewrite Hc.
    specialize (IH Ht K).
    destruct (InputGroup.leadingDigits (t ++ _)), (InputGroup.leadingDigits t).
    simpl in *. now rewrite IH.
Qed.

(** The number of a text of digits is the number its digits write; the empty
    text gives 0. *)
Lemma numberOf_digits (t : string) :
  everyChar InputGroup.isDigit t = true ->
  InputGroup.numberOf t
  = inject_Z (Z.of_N (InputGroup.decimalValue (fst (InputGroup.leadingDigits t)))).
Proof.
  intro H. unfold InputGroup.numberOf.
  destruct (digits_every_allowed t H) as (_ & Hk & _).
  rewrite (remove_nothing (Ascii.eqb ",") t Hk).
  unfold InputGroup.parseFloat.
  pose proof (leadingDigits_digits t H) as R.
  destruct (InputGroup.leadingDigits t) as [ds rest]. simpl in R. subst rest.
  simpl. rewrite app_nil_r. destruct ds; reflexivity.
Qed.

(** A text of digits is accepted as it is. *)
Lemma handleChange_digits (t : string) (w : InputGroup.State) :
  everyChar InputGroup.isDigit t = true ->
  InputGroup.handleChange t w =
    ({| InputGroup.localValue := t;
        InputGroup.lastEmittedValue := InputGroup.numberOf t |},
     Some (InputGroup.numberOf t)).
Proof.
  intro H. unfold InputGroup.handleChange.
  destruct (digits_every_allowed t H) as (Ha & _ & Hp).
  rewrite (remove_nothing _ t Ha), Hp. reflexivity.
Qed.

Lemma digitValue_below_ten (key : ascii) :
  InputGroup.isDigit key = true -> (InputGroup.digitValue key < 10)%N.
Proof.
  unfold InputGroup.isDigit, InputGroup.digitValue. intro H.
  apply andb_true_iff in H. destruct H as [H1 H2].
  apply N.leb_le in H1, H2. lia.
Qed.

Lemma decimal_digits_bound (ds : list N) (acc : N) :
  Forall (fun d => (d < 10)%N) ds ->
  (fold_left (fun a d => 10 * a + d) ds acc
   < (acc + 1) * 10 ^ N.of_nat (List.length ds))%N.
Proof.
  intro H. revert acc. induction H as [|d ds Hd _ IH]; intro acc.
  - simpl. lia.
  - cbn [fold_left List.length]. specialize (IH (10 * acc + d)%N).
    rewrite Nat2N.inj_succ, N.pow_succ_r'. nia.
Qed.

Lemma leadingDigits_below_ten (t : string) :
  everyChar InputGroup.isDigit t = true ->
  Forall (fun d => (d < 10)%N) (fst (InputGroup.leadingDigits t)) /\
  List.length (fst (InputGroup.leadingDigits t)) = String.length t.
Proof.
  induction t as [|c t IH]; simpl; [split; [constructor | reflexivity]|].
  intro H. apply andb_true_iff in H. destruct H as [Hc Ht]. rewrite Hc.
  destruct (IH Ht) as [I1 I2].
  destruct (InputGroup.leadingDigits t) as [ds rest]. simpl in *.
  split; [|now rewrite I2].
  constructor; [now apply digitValue_below_ten | exact I1].
Qed.

(** X18.  The field reads decimal notation: a text of at most 14 digits
    sends the whole number [n] its digits write (the empty text sends 0),
    below 10^14, and the text with one more digit [d] sends [10 n + d].
    Numbers of up to 15 digits are doubles, so they are read exactly. *)
Theorem handleChange_appended_digit :
  forall (text : string) (key : ascii) (w w' : InputGroup.State),
    everyChar InputGroup.isDigit text = true ->
    InputGroup.isDigit key = true ->
    (String.length text <= 14)%nat ->
    exists n : N,
      (n < 10 ^ 14)%N /\
      snd (InputGroup.handleChange text w) = Some (inject_Z (Z.of_N n)) /\
      snd (InputGroup.handleChange (text ++ String key EmptyString) w')
      = Some (inject_Z (Z.of_N (10 * n + InputGroup.digitValue key))) /\
      (InputGroup.digitValue key < 10)%N.
Proof.
  intros text key w w' H K L.
  rewrite (handleChange_digits text w H).
  rewrite (handleChange_digits _ w' (digits_append text key H K)).
  rewrite (numberOf_digits text H).
  rewrite (numberOf_digits _ (digits_append text key H K)).
  rewrite (leadingDigits_append text key H K).
  eexists. split; [|split; [reflexivity|]].
  - destruct (leadingDigits_below_ten text H) as [B1 B2].
    pose proof (decimal_digits_bound _ 0%N B1) as Hb.
    rewrite B2 in Hb. unfold InputGroup.decimalValue.
    assert (P : (10 ^ N.of_nat (String.length text) <= 10 ^ 14)%N)
      by (apply N.pow_le_mono_r; lia).
    lia.
  - split; [|now apply digitValue_below_ten].
    simpl. unfold InputGroup.decimalValue. rewrite fold_left_app. reflexivity.
Qed.

Lemma handleChange_appended_digit_witness :
  exists n : N,
    (n < 10 ^ 14)%N /\
    snd (InputGroup.handleChange "202" emptyField) = Some (inject_Z (Z.of_N n)) /\
    snd (InputGroup.handleChange "2025" emptyField)
    = Some (inject_Z (Z.of_N (10 * n + 5))) /\
    (5 < 10)%N.
Proof.
  apply (handleChange_appended_digit "202" "5" emptyField emptyField);
    try reflexivity.
  simpl. lia.
Defined.

(** ** Typing a year, key by key *)

Lemma append_cons_assoc (t : string) (key : ascii) (rest : string) :
  ((t ++ String key EmptyString) ++ rest)%string = (t ++ String key rest)%string.
Proof. induction t as [|c t IH]; simpl; [reflexivity | now rewrite IH]. Qed.

Lemma append_empty (t : string) : (t ++ "")%string = t.
Proof. induction t as [|c t IH]; simpl; [reflexivity | now rewrite IH]. Qed.

Lemma numberOf_grows (t : string) (key : ascii) :
  everyChar InputGroup.isDigit t = true -> InputGroup.isDigit key = true ->
  InputGroup.numberOf t <= InputGroup.numberOf (t ++ String key EmptyString).
Proof.
  intros H K.
  rewrite (numberOf_digits t H), (numberOf_digits _ (digits_append t key H K)).
  rewrite (leadingDigits_append t key H K).
  unfold InputGroup.decimalValue. rewrite fold_left_app. cbn [fold_left].
  rewrite <- Zle_Qle. lia.
Qed.

(** Typing digits into the end-year field of a state whose start year is
    set and not above what the field already shows: the start year stays,
    the end year follows the text. *)
Lemma typeYear_end_digits (currentYear : number) (keys : list ascii) :
  forall (w : InputGroup.State) (i : CalculationInputs) (first : number),
    everyChar InputGroup.isDigit (InputGroup.localValue w) = true ->
    forallb InputGroup.isDigit keys = true ->
    startYear i = Some first -> truthy first = true ->
    first <= InputGroup.numberOf (InputGroup.localValue w) ->
    endYear i = Some (InputGroup.numberOf (InputGroup.localValue w)) ->
    let i' := typeYear currentYear end_ keys w i in
    startYear i' = Some first /\
    endYear i' =
      Some (InputGroup.numberOf
              (InputGroup.localValue w ++ string_of_list_ascii keys)).
Proof.
  induction keys as [|key keys IH]; intros w i first Hw Hk Es T Hle Ee; simpl.
  - split; [exact Es|].
    rewrite append_empty. exact Ee.
  - simpl in Hk. apply andb_true_iff in Hk. destruct Hk as [Kd Kr].
    pose proof (digits_append _ key Hw Kd) as Hw'.
    rewrite (handleChange_digits _ w Hw').
    pose proof (numberOf_grows _ key Hw Kd) as Hg.
    set (text' := (InputGroup.localValue w ++ String key EmptyString)%string) in *.
    destruct (end_edit_keeps_start currentYear (InputGroup.numberOf text') first i Es)
      as (Es' & Ee' & _); [rewrite Es; exact T | lra |].
    rewrite <- append_cons_assoc. fold text'.
    apply (IH {| InputGroup.localValue := text';
                 InputGroup.lastEmittedValue := InputGroup.numberOf text' |});
      simpl; auto. lra.
Qed.

(** X19.  Retyping the end year costs the start year.  With a start year
    above 9 in place, typing a year into the end-year field key by key
    (digits, the first one not 0) sends the first digit alone before the
    rest: that pulls the start year down to it, and no later key brings it
    back.  The state ends with the first digit as start year, the typed
    year as end year and the duration between the two. *)
Theorem typing_end_year_pulls_start_to_first_digit :
  forall (currentYear s : number) (key : ascii) (keys : list ascii)
         (prev : CalculationInputs),
    InputGroup.isDigit key = true -> InputGroup.digitValue key <> 0%N ->
    forallb InputGroup.isDigit keys = true ->
    startYear prev = Some s -> 9 < s ->
    let next := typeYear currentYear end_ (key :: keys) emptyField prev in
    let first := inject_Z (Z.of_N (InputGroup.digitValue key)) in
    let typed := InputGroup.numberOf (string_of_list_ascii (key :: keys)) in
    startYear next = Some first /\ endYear next = Some typed /\
    first <= typed.
Proof.
  intros cy s key keys prev Kd Knz Kr Es Hs next first typed.
  subst next. cbn [typeYear emptyField InputGroup.localValue append].
  assert (H1 : everyChar InputGroup.isDigit (String key EmptyString) = true)
    by (simpl; now rewrite Kd).
  rewrite (handleChange_digits _ _ H1).
  assert (V : InputGroup.numberOf (String key EmptyString) = first).
  { rewrite (numberOf_digits _ H1). simpl. rewrite Kd. simpl.
    unfold first. do 2 f_equal. }
  rewrite V.
  pose proof (digitValue_below_ten key Kd) as Hlt.
  assert (F9 : first <= 9).
  { unfold first. change 9 with (inject_Z 9). rewrite <- Zle_Qle. lia. }
  assert (Tf : truthy first = true).
  { apply truthy_true. unfold first. intro E.
    unfold Qeq, inject_Z in E. cbn [Qnum Qden] in E. lia. }
  assert (Ts : is_set (startYear prev) = true).
  { rewrite Es. simpl. apply truthy_true. intro E. rewrite E in Hs. discriminate Hs. }
  destruct (end_before_start cy first prev) as (Es1 & Ee1 & _).
  { unfold resolvedStart. rewrite (or_else_set _ cy s Es); [lra|].
    rewrite Es in Ts. exact Ts. }
  set (w1 := {| InputGroup.localValue := String key EmptyString;
                InputGroup.lastEmittedValue := first |}).
  destruct (typeYear_end_digits cy keys w1
              (handlePeriodRangeChange cy end_ first prev) first) as (R1 & R2);
    simpl; auto; try lra.
  - rewrite V. lra.
  - rewrite V. exact Ee1.
  - simpl in R2. split; [exact R1|]. split; [exact R2|].
    unfold typed. simpl.
    assert (G : forall ks t, everyChar InputGroup.isDigit t = true ->
                  forallb InputGroup.isDigit ks = true ->
                  InputGroup.numberOf t
                  <= InputGroup.numberOf (t ++ string_of_list_ascii ks)).
    { induction ks as [|k ks IHk]; intros t Ht Hks; simpl.
      - rewrite append_empty. lra.
      - simpl in Hks. apply andb_true_iff in Hks. destruct Hks as [K1 K2].
        rewrite <- append_cons_assoc.
        pose proof (numberOf_grows t k Ht K1).
        pose proof (IHk _ (digits_append t k Ht K1) K2). lra. }
    specialize (G keys _ H1 Kr). rewrite V in G. exact G.
Qed.

Lemma typing_end_year_pulls_start_to_first_digit_witness :
  let next := typeYear 2026 end_ (list_ascii_of_string "2031") emptyField rangeExample in
  startYear next = Some 2 /\ endYear next = Some 2031 /\ 2 <= 2031.
Proof.
  apply (typing_end_year_pulls_start_to_first_digit 2026 2025 "2"
           (list_ascii_of_string "031") rangeExample); try reflexivity.
  discriminate.
Defined.

Lemma start_edit_fields (currentYear year : number) (prev : CalculationInputs) :
  let next := handlePeriodRangeChange currentYear start year prev in
  let e := if gt year (resolvedEnd currentYear prev)
           then year else resolvedEnd currentYear prev in
  startYear next = Some year /\ endYear next = Some e /\
  durationMonths next = (e - year + 1) * 12.
Proof.
  unfold handlePeriodRangeChange, resolvedEnd, resolvedStart.
  destruct (gt _ _); simpl; repeat split.
Qed.

(** A start-year edit overwrites an earlier start-year edit to a lower or
    the same year, when the end year in place is positive. *)
Lemma start_edit_overwrites (currentYear v v' e : number) (prev : CalculationInputs) :
  endYear prev = Some e -> 0 < e -> v = v' \/ v < v' ->
  handlePeriodRangeChange currentYear start v'
    (handlePeriodRangeChange currentYear start v prev)
  = handlePeriodRangeChange currentYear start v' prev.
Proof.
  intros Ee He Hv.
  assert (Te : truthy e = true)
    by (apply truthy_true; intro Z; rewrite Z in He; discriminate He).
  assert (Re : resolvedEnd currentYear prev = e)
    by (apply resolvedEnd_set; [exact Ee | rewrite Ee; exact Te]).
  set (once := handlePeriodRangeChange currentYear start v prev).
  destruct (start_edit_fields currentYear v prev) as (S1 & E1 & _).
  fold once in S1, E1. rewrite Re in E1.
  set (e1 := if gt v e then v else e) in *.
  assert (P1 : 0 < e1 /\ e <= e1 /\ (e1 = e \/ (e1 = v /\ e < v))).
  { unfold e1. destruct (gt v e) eqn:G; tests_to_props; repeat split; auto; lra. }
  destruct P1 as (P1 & P2 & P3). clearbody e1.
  assert (T1 : truthy e1 = true)
    by (apply truthy_true; intro Z; rewrite Z in P1; discriminate P1).
  assert (R1 : resolvedEnd currentYear once = e1)
    by (apply resolvedEnd_set; [exact E1 | rewrite E1; exact T1]).
  destruct (start_edit_fields currentYear v' once) as (S2 & E2 & D2).
  destruct (start_edit_fields currentYear v' prev) as (Sd & Ed & Dd).
  rewrite R1 in E2, D2. rewrite Re in Ed, Dd.
  destruct (range_edit_frame currentYear start v' once) as (F1 & F2 & F3 & F4 & F5 & F6 & F7).
  destruct (range_edit_frame currentYear start v prev) as (G1 & G2 & G3 & G4 & G5 & G6 & G7).
  destruct (range_edit_frame currentYear start v' prev) as (K1 & K2 & K3 & K4 & K5 & K6 & K7).
  fold once in G1, G2, G3, G4, G5, G6, G7.
  assert (X : (if gt v' e1 then v' else e1) = (if gt v' e then v' else e)).
  { destruct (gt v' e1) eqn:A; destruct (gt v' e) eqn:B; tests_to_props;
      try reflexivity.
    - exfalso. lra.
    - destruct P3 as [P3 | [P3 Hlt]].
      + exfalso. rewrite P3 in A. lra.
      + destruct Hv as [Hv | Hv]; [congruence|]. exfalso. rewrite P3 in A. lra.
    - destruct P3 as [P3 | [P3 Hlt]]; [exact P3|].
      exfalso. destruct Hv as [Hv | Hv]; [rewrite Hv in Hlt|]; lra. }
  rewrite X in E2, D2.
  apply inputs_ext; congruence.
Qed.

Lemma typeYear_start_digits (currentYear e : number) (prev : CalculationInputs)
    (keys : list ascii) :
  endYear prev = Some e -> 0 < e ->
  forall (w : InputGroup.State),
    everyChar InputGroup.isDigit (InputGroup.localValue w) = true ->
    forallb InputGroup.isDigit keys = true ->
    typeYear currentYear start keys w
      (handlePeriodRangeChange currentYear start
         (InputGroup.numberOf (InputGroup.localValue w)) prev)
    = handlePeriodRangeChange currentYear start
        (InputGroup.numberOf (InputGroup.localValue w ++ string_of_list_ascii keys))
        prev.
Proof.
  intros Ee He. induction keys as [|key keys IH]; intros w Hw Hk; simpl.
  - now rewrite append_empty.
  - simpl in Hk. apply andb_true_iff in Hk. destruct Hk as [Kd Kr].
    pose proof (digits_append _ key Hw Kd) as Hw'.
    rewrite (handleChange_digits _ w Hw'). cbv beta iota.
    set (text' := (InputGroup.localValue w ++ String key EmptyString)%string) in *.
    rewrite (start_edit_overwrites currentYear _ (InputGroup.numberOf text') e prev Ee He).
    + rewrite <- append_cons_assoc. fold text'.
      apply (IH {| InputGroup.localValue := text';
                   InputGroup.lastEmittedValue := InputGroup.numberOf text' |});
        assumption.
    + subst text'.
      rewrite (numberOf_digits _ Hw), (numberOf_digits _ Hw').
      rewrite (leadingDigits_append _ key Hw Kd).
      unfold InputGroup.decimalValue. rewrite fold_left_app. cbn [fold_left].
      set (n := fold_left _ _ 0%N).
      destruct (N.eq_dec n (10 * n + InputGroup.digitValue key)) as [E | N].
      * left. now rewrite <- E.
      * right. rewrite <- Zlt_Qlt. lia.
Qed.

(** X20.  Retyping the start year is harmless.  With a positive end year in
    place, typing digits into the start-year field key by key leaves the
    state that entering the typed year at once gives: every key sends a
    year that the next key overwrites. *)
Theorem typing_start_year_is_one_edit :
  forall (currentYear e : number) (key : ascii) (keys : list ascii)
         (prev : CalculationInputs),
    InputGroup.isDigit key = true -> forallb InputGroup.isDigit keys = true ->
    endYear prev = Some e -> 0 < e ->
    typeYear currentYear start (key :: keys) emptyField prev
    = handlePeriodRangeChange currentYear start
        (InputGroup.numberOf (string_of_list_ascii (key :: keys))) prev.
Proof.
  intros cy e key keys prev Kd Kr Ee He.
  cbn [typeYear emptyField InputGroup.localValue append].
  assert (H1 : everyChar InputGroup.isDigit (String key EmptyString) = true)
    by (simpl; now rewrite Kd).
  rewrite (handleChange_digits _ _ H1).
  apply (typeYear_start_digits cy e prev keys Ee He
           {| InputGroup.localValue := String key EmptyString;
              InputGroup.lastEmittedValue :=
                InputGroup.numberOf (String key EmptyString) |} H1 Kr).
Qed.

Lemma typing_start_year_is_one_edit_witness :
  typeYear 2026 start (list_ascii_of_string "2031") emptyField rangeExample
  = handlePeriodRangeChange 2026 start 2031 rangeExample.
Proof.
  apply (typing_start_year_is_one_edit 2026 2030 "2"
           (list_ascii_of_string "031") rangeExample); reflexivity.
Defined.

(** ** Showing a number and reading it back *)

Lemma string_of_uint_digits (d : Decimal.uint) :
  everyChar InputGroup.isDigit (NilEmpty.string_of_uint d) = true /\
  forall acc : nat,
    fold_left (fun a x => 10 * a + x)%N
      (fst (InputGroup.leadingDigits (NilEmpty.string_of_uint d))) (N.of_nat acc)
    = N.of_nat (Nat.of_uint_acc d acc).
Proof.
  induction d as [|d [IH1 IH2]|d [IH1 IH2]|d [IH1 IH2]|d [IH1 IH2]|d [IH1 IH2]
                  |d [IH1 IH2]|d [IH1 IH2]|d [IH1 IH2]|d [IH1 IH2]|d [IH1 IH2]];
    [split; [reflexivity | intro acc; reflexivity] | ..];
    (split;
     [ cbn [NilEmpty.string_of_uint everyChar]; rewrite IH1; reflexivity
     | intro acc; cbn [NilEmpty.string_of_uint InputGroup.leadingDigits Nat.of_uint_acc];
       match goal with
       | |- context [InputGroup.isDigit ?c] =>
           change (InputGroup.isDigit c) with true
       end;
       cbv iota;
       destruct (InputGroup.leadingDigits (NilEmpty.string_of_uint d)) as [ds rest];
       cbn [fst fold_left] in *; rewrite <- IH2; f_equal;
       rewrite Nat.tail_mul_spec; vm_compute InputGroup.digitValue; lia ]).
Qed.

(** X21.  What the field shows for a whole number reads back as that number:
    the text [format] writes for a natural number below 2^53 (without
    separators), passed to [handleChange], is kept as it is and sends the
    number.  Below 2^53 every natural number is a double, written with all
    its digits and read back exactly. *)
Theorem shown_number_reads_back :
  forall (n : nat) (w : InputGroup.State),
    (N.of_nat n < 2 ^ 53)%N ->
    InputGroup.handleChange (toStringNatural n) w =
      ({| InputGroup.localValue := toStringNatural n;
          InputGroup.lastEmittedValue := inject_Z (Z.of_nat n) |},
       Some (inject_Z (Z.of_nat n))).
Proof.
  intros n w _. unfold toStringNatural.
  destruct (string_of_uint_digits (Nat.to_uint n)) as [H1 H2].
  rewrite (handleChange_digits _ w H1), (numberOf_digits _ H1).
  unfold InputGroup.decimalValue.
  change 0%N with (N.of_nat 0). rewrite H2.
  fold (Nat.of_uint (Nat.to_uint n)). rewrite DecimalNat.Unsigned.of_to.
  rewrite nat_N_Z. reflexivity.
Qed.

Lemma shown_number_reads_back_witness :
  InputGroup.handleChange (toStringNatural 2025) emptyField =
    ({| InputGroup.localValue := "2025"; InputGroup.lastEmittedValue := 2025 |},
     Some 2025).
Proof.
  apply (shown_number_reads_back 2025 emptyField). reflexivity.
Defined.

(** ** The collaborators, once more *)

(** X22.  For every reply of the model API the lookup reports a find
    exactly when it returns a positive area, so its handler writes an input
    exactly when a find is reported; a reply that throws or cannot be read
    returns the areas 0 and no find. *)
Theorem lookup_found_iff_positive_area :
  forall reply : Lookup.ApiReply,
    let r := Lookup.searchApartmentTotalArea reply in
    (Lookup.found r = true <->
     0 < Lookup.totalArea r \/ 0 < Lookup.householdArea r) /\
    (forall st : AppState,
       Lookup.found r = false ->
       inputs (handleAptSearch_settled (Resolved r) st) = inputs st) /\
    (forall st : AppState,
       Lookup.found r = true ->
       searchMessage (handleAptSearch_settled (Resolved r) st) <> AreasNotFound) /\
    (forall chunks,
       reply = Lookup.ApiThrows \/
       reply = Lookup.ApiResponse (Some Lookup.JsonThrows) chunks ->
       Lookup.found r = false /\ Lookup.totalArea r = 0 /\ Lookup.householdArea r = 0).
Proof.
  intros reply r.
  pose proof (searchApartmentTotalArea_found reply) as F. fold r in F. simpl in F.
  split; [|split; [|split]].
  - rewrite F, orb_true_iff. split; intros [H | H]; [left | right | left | right];
      tests_to_props; try exact H; now apply gt_true.
  - intros st N. unfold handleAptSearch_settled. rewrite N. reflexivity.
  - intros st T. unfold handleAptSearch_settled. rewrite T.
    rewrite T in F. symmetry in F. apply orb_true_iff in F.
    destruct (gt (Lookup.totalArea r) 0) eqn:Gt;
      destruct (gt (Lookup.householdArea r) 0) eqn:Gh; simpl; rewrite ?Gt;
      try discriminate.
    destruct F; discriminate.
  - intros chunks [-> | ->]; subst r; repeat split.
Qed.

Lemma lookup_found_iff_positive_area_witness :
  let r := Lookup.searchApartmentTotalArea Lookup.ApiThrows in
  Lookup.found r = false /\ Lookup.totalArea r = 0 /\ Lookup.householdArea r = 0.
Proof.
  apply (proj2 (proj2 (proj2 (lookup_found_iff_positive_area Lookup.ApiThrows))) None).
  left. reflexivity.
Defined.

(** X23.  In every state a session can reach, no advice text is on display
    before a consultation has settled (the status is IDLE or LOADING and
    the text is empty), and a failed consultation shows the fixed error
    text, never an earlier advice. *)
Theorem advice_text_follows_status :
  forall (trim : string -> string) (st : AppState),
    reachable trim st ->
    match adviceStatus st with
    | IDLE | LOADING => advice st = EmptyString
    | ERROR => advice st = adviceErrorText
    | SUCCESS => True
    end.
Proof.
  intros trim st R. induction R as [cy | cy ev st R IH].
  - reflexivity.
  - destruct ev; simpl; try exact IH.
    + unfold handleAptSearch_request. destruct (trim (aptName st)); exact IH.
    + destruct outcome as [r|]; [|exact IH].
      unfold handleAptSearch_settled.
      destruct (Lookup.found r);
        [destruct (gt (Lookup.totalArea r) 0); destruct (gt (Lookup.householdArea r) 0)|];
        exact IH.
    + unfold handleConsultAI_request. destruct (result st); [reflexivity | exact IH].
    + destruct outcome; simpl; auto.
Qed.

Lemma advice_text_follows_status_witness :
  let st := dispatch (fun s => s) 2026 (ConsultAISettled Rejected)
              (dispatch (fun s => s) 2026 (ConsultAISettled (Resolved "advice"%string))
                 (initialState 2026)) in
  advice st = adviceErrorText.
Proof.
  apply (advice_text_follows_status (fun s => s)
           (dispatch (fun s => s) 2026 (ConsultAISettled Rejected)
              (dispatch (fun s => s) 2026 (ConsultAISettled (Resolved "advice"%string))
                 (initialState 2026)))).
  do 2 apply reachable_dispatch. apply reachable_initial.
Defined.

(** ** Range edits on doubles: why the whole years are bounded *)

(** With the rounding of doubles, the whole year 4 * 10^15 entered as end
    year against the start year 2 stores 47,999,999,999,999,984 months
    (the exact product 47,999,999,999,999,988 is not a double), which is 8
    more than a multiple of 12.  At the bound of 10^15, from -10^15 to
    10^15, the stored duration is the exact 24,000,000,000,000,012
    months. *)
Lemma binary64_large_whole_years :
  (let st := Binary64Range.handlePeriodRangeChange 2026 end_ 4000000000000000
               (Binary64Range.handlePeriodRangeChange 2026 start 2
                  Binary64.rateExample) in
   Binary64.startYear st = Some 2%float /\
   integerOfDouble (Binary64.durationMonths st) = Some 47999999999999984%Z /\
   (47999999999999984 mod 12 = 8)%Z) /\
  (let st := Binary64Range.handlePeriodRangeChange 2026 end_ 1000000000000000
               (Binary64Range.handlePeriodRangeChange 2026 start (-1000000000000000)
                  Binary64.rateExample) in
   integerOfDouble (Binary64.durationMonths st) = Some (12 * (2 * 10 ^ 15 + 1))%Z).
Proof. split; [repeat split|]; vm_compute; reflexivity. Qed.

(** The fractional start year 2025.5 against 2030 gives 66 months on
    doubles as well. *)
Lemma binary64_fractional_year :
  let st := Binary64Range.handlePeriodRangeChange 2026 start 2025.5
              (Binary64Range.handlePeriodRangeChange 2026 end_ 2030
                 Binary64.rateExample) in
  Binary64.durationMonths st = 66%float.
Proof. vm_compute. reflexivity. Qed.
